(** * StackAllocator: a shallow embedding of [stack_alloc.c] and its properties

    The allocator is a bump pointer over a caller-supplied buffer.  The C code
    casts every pointer to [uint32] and back, so the target has 32-bit
    addresses: a [uint8*] is modelled as the address it holds, a [Z] in
    [0, 2^32), and both [uint32] and pointer arithmetic wrap modulo [2^32]
    (the overflow test [new_top < aligned_ptr] in [StackAlloc_Alloc] only
    makes sense under that reading).  A handle [TStack_alloc*] is modelled as
    [option TStack_alloc]: [None] is [NULL_PTR], [Some s] points to a
    structure whose fields are [s]; a function that writes through the handle
    returns the new contents next to its C return value. *)

From Stdlib Require Import ZArith Bool Lia.

Local Open Scope Z_scope.

(** ** Scalar types ([std_types.h]) and configuration ([stack_alloc_cfg.h]) *)

(** The value a C expression has after conversion to [uint32]. *)
Definition to_uint32 (z : Z) : Z := z mod 2 ^ 32.

(** Values a [uint32] variable, or a pointer of the target, can hold. *)
Definition in_uint32 (z : Z) : Prop := 0 <= z < 2 ^ 32.

(** Modelled from the spec: [NULL_PTR] comes from [std_types.h], which is not
    part of the sources; the spec calls it the absent handle or address, and
    as an address it is [0]. *)
Definition NULL_PTR : Z := 0.

(** [#define STACK_ALLOC_ALIGNMENT (8U)] *)
Definition STACK_ALLOC_ALIGNMENT : Z := 8.

(** [#define SIZE_MAX ((uint32)-1)] *)
Definition SIZE_MAX : Z := to_uint32 (-1).

(** ** Error codes and the instance structure ([stack_alloc_types.h]) *)

Inductive TStack_alloc_error : Set :=
| STACK_ALLOC_OK
| STACK_ALLOC_ERROR_INVALID_PARAM
| STACK_ALLOC_ERROR_OUT_OF_MEMORY
| STACK_ALLOC_ERROR_CORRUPTED_STATE
| STACK_ALLOC_ERROR_INVALID_MARKER
| STACK_ALLOC_ERROR_NOT_LIFO.

(** The [uint8] value each code is defined as. *)
Definition error_code (e : TStack_alloc_error) : Z :=
  match e with
  | STACK_ALLOC_OK => 0
  | STACK_ALLOC_ERROR_INVALID_PARAM => 1
  | STACK_ALLOC_ERROR_OUT_OF_MEMORY => 2
  | STACK_ALLOC_ERROR_CORRUPTED_STATE => 3
  | STACK_ALLOC_ERROR_INVALID_MARKER => 4
  | STACK_ALLOC_ERROR_NOT_LIFO => 5
  end.

Record TStack_alloc : Set := mkStack_alloc {
  buffer_start : Z;   (* start of the entire memory region *)
  buffer_end : Z;     (* one past the last byte of the region *)
  current : Z;        (* current top of the stack *)
  capacity : Z        (* total size of the buffer in bytes *)
}.

(** Field assignments [sa->f = v]. *)
Definition set_buffer_start (s : TStack_alloc) (v : Z) : TStack_alloc :=
  mkStack_alloc v (buffer_end s) (current s) (capacity s).

Definition set_buffer_end (s : TStack_alloc) (v : Z) : TStack_alloc :=
  mkStack_alloc (buffer_start s) v (current s) (capacity s).

Definition set_current (s : TStack_alloc) (v : Z) : TStack_alloc :=
  mkStack_alloc (buffer_start s) (buffer_end s) v (capacity s).

Definition set_capacity (s : TStack_alloc) (v : Z) : TStack_alloc :=
  mkStack_alloc (buffer_start s) (buffer_end s) (current s) v.

(** ** Byte memory and the zeroing primitive ([helper_routines.h]) *)

(** The bytes of the address space, read by address. *)
Definition memory : Type := Z -> Z.

(** Modelled from the spec: [mem_set] is declared in [helper_routines.h],
    which is not part of the sources.  The spec's contract for the primitive:
    given an address and a byte count, it sets every byte in that range (to
    zero, the only value [StackAlloc_Calloc] passes); the bytes outside the
    range are not written. *)
Definition mem_set (m : memory) (dst value n : Z) : memory :=
  fun a => if (dst <=? a) && (a <? dst + n) then value mod 256 else m a.

(** ** The allocator ([stack_alloc.c]) *)

Definition AlignUp (address alignment : Z) : Z :=
  let remainder := address mod alignment in
  if remainder =? 0 then address
  else to_uint32 (address + (alignment - remainder)).

Definition GetAlignedStart (sa : TStack_alloc) : Z :=
  AlignUp (buffer_start sa) STACK_ALLOC_ALIGNMENT.

Definition StackAlloc_Init (sa : option TStack_alloc) (buffer buffer_size : Z)
  : TStack_alloc_error * option TStack_alloc :=
  match sa with
  | None => (STACK_ALLOC_ERROR_INVALID_PARAM, None)
  | Some s =>
      if (buffer =? NULL_PTR) || (buffer_size <? STACK_ALLOC_ALIGNMENT)
      then (STACK_ALLOC_ERROR_INVALID_PARAM, Some s)
      else
        let s1 := set_buffer_start s buffer in
        let s2 := set_buffer_end s1 (to_uint32 (buffer_start s1 + buffer_size)) in
        let s3 := set_capacity s2 buffer_size in
        let s4 := set_current s3 (GetAlignedStart s3) in
        if current s4 >=? buffer_end s4
        then (STACK_ALLOC_ERROR_OUT_OF_MEMORY, Some s4)
        else (STACK_ALLOC_OK, Some s4)
  end.

Definition StackAlloc_Alloc (sa : option TStack_alloc) (size : Z)
  : Z * option TStack_alloc :=
  match sa with
  | None => (NULL_PTR, None)
  | Some s =>
      if size =? 0 then (NULL_PTR, Some s)
      else
        let aligned_ptr := AlignUp (current s) STACK_ALLOC_ALIGNMENT in
        let new_top := to_uint32 (aligned_ptr + size) in
        if (new_top <? aligned_ptr) || (new_top >? buffer_end s)
        then (NULL_PTR, Some s)
        else (aligned_ptr, Some (set_current s new_top))
  end.

Definition StackAlloc_Calloc (sa : option TStack_alloc) (m : memory)
  (num size : Z) : Z * option TStack_alloc * memory :=
  if (num =? 0) || (size =? 0) then (NULL_PTR, sa, m)
  else if num >? SIZE_MAX / size then (NULL_PTR, sa, m)
  else
    let total := to_uint32 (num * size) in
    let (ptr, sa') := StackAlloc_Alloc sa total in
    if negb (ptr =? NULL_PTR)
    then (ptr, sa', mem_set m ptr 0 total)
    else (ptr, sa', m).

(** Modelled from the spec: [StackAlloc_GetMarker] is declared in
    [stack_alloc.h] but [stack_alloc.c] has no definition of it.  The spec:
    it returns the current cursor value ([current]) as an opaque marker, or
    "none" if the instance handle is absent. *)
Definition StackAlloc_GetMarker (sa : option TStack_alloc) : Z :=
  match sa with
  | None => NULL_PTR
  | Some s => current s
  end.

Definition StackAlloc_FreeToMarker (sa : option TStack_alloc) (marker : Z)
  : TStack_alloc_error * option TStack_alloc :=
  match sa with
  | None => (STACK_ALLOC_ERROR_INVALID_PARAM, None)
  | Some s =>
      if marker =? NULL_PTR then (STACK_ALLOC_ERROR_INVALID_PARAM, Some s)
      else
        let mark := marker in
        if (mark <? buffer_start s) || (mark >=? current s)
        then (STACK_ALLOC_ERROR_INVALID_MARKER, Some s)
        else if negb (mark =? NULL_PTR)
                && negb (Z.land mark (STACK_ALLOC_ALIGNMENT - 1) =? 0)
        then (STACK_ALLOC_ERROR_INVALID_MARKER, Some s)
        else (STACK_ALLOC_OK, Some (set_current s mark))
  end.

Definition StackAlloc_Reset (sa : option TStack_alloc) : option TStack_alloc :=
  match sa with
  | None => None
  | Some s => Some (set_current s (GetAlignedStart s))
  end.

Definition StackAlloc_GetCapacity (sa : option TStack_alloc) : Z :=
  match sa with
  | Some s => capacity s
  | None => 0
  end.

Definition StackAlloc_GetUsed (sa : option TStack_alloc) : Z :=
  match sa with
  | None => 0
  | Some s =>
      let aligned_start := GetAlignedStart s in
      to_uint32 (current s - aligned_start)
  end.

Definition StackAlloc_GetAvailable (sa : option TStack_alloc) : Z :=
  match sa with
  | Some s => to_uint32 (buffer_end s - current s)
  | None => 0
  end.

Definition StackAlloc_Validate (sa : option TStack_alloc) : TStack_alloc_error :=
  match sa with
  | None => STACK_ALLOC_ERROR_CORRUPTED_STATE
  | Some s =>
      if (buffer_start s =? NULL_PTR) || (buffer_end s =? NULL_PTR)
      then STACK_ALLOC_ERROR_CORRUPTED_STATE
      else if buffer_start s >? buffer_end s
      then STACK_ALLOC_ERROR_CORRUPTED_STATE
      else
        let aligned_start := GetAlignedStart s in
        if (current s <? aligned_start) || (current s >? buffer_end s)
        then STACK_ALLOC_ERROR_CORRUPTED_STATE
        else STACK_ALLOC_OK
  end.

(** ** The public interface as one transition function *)

(** A call of a public operation on one instance, with its arguments. *)
Inductive operation : Set :=
| OpInit (buffer buffer_size : Z)
| OpAlloc (size : Z)
| OpCalloc (num size : Z)
| OpGetMarker
| OpFreeToMarker (marker : Z)
| OpReset
| OpGetCapacity
| OpGetUsed
| OpGetAvailable
| OpValidate.

(** What a call hands back to its caller. *)
Inductive outcome : Set :=
| RetError (e : TStack_alloc_error)
| RetPtr (p : Z)
| RetSize (n : Z)
| RetVoid.

(** The instance behind the handle together with the byte memory. *)
Definition world : Type := option TStack_alloc * memory.

Definition call (o : operation) (w : world) : outcome * world :=
  let (sa, m) := w in
  match o with
  | OpInit buffer buffer_size =>
      let (e, sa') := StackAlloc_Init sa buffer buffer_size in
      (RetError e, (sa', m))
  | OpAlloc size =>
      let (p, sa') := StackAlloc_Alloc sa size in (RetPtr p, (sa', m))
  | OpCalloc num size =>
      let '(p, sa', m') := StackAlloc_Calloc sa m num size in
      (RetPtr p, (sa', m'))
  | OpGetMarker => (RetPtr (StackAlloc_GetMarker sa), (sa, m))
  | OpFreeToMarker marker =>
      let (e, sa') := StackAlloc_FreeToMarker sa marker in
      (RetError e, (sa', m))
  | OpReset => (RetVoid, (StackAlloc_Reset sa, m))
  | OpGetCapacity => (RetSize (StackAlloc_GetCapacity sa), (sa, m))
  | OpGetUsed => (RetSize (StackAlloc_GetUsed sa), (sa, m))
  | OpGetAvailable => (RetSize (StackAlloc_GetAvailable sa), (sa, m))
  | OpValidate => (RetError (StackAlloc_Validate sa), (sa, m))
  end.

(** A call reports success: result code [STACK_ALLOC_OK], a pointer other
    than [NULL_PTR]; the accessors and [StackAlloc_Reset] cannot fail. *)
Definition succeeded (r : outcome) : bool :=
  match r with
  | RetError STACK_ALLOC_OK => true
  | RetError _ => false
  | RetPtr p => negb (p =? NULL_PTR)
  | RetSize _ => true
  | RetVoid => true
  end.

(** The arguments of a call are values of their C types, and the buffer given
    to [StackAlloc_Init] is a region of the address space: its one-past-the-end
    address exists. *)
Definition well_formed (o : operation) : Prop :=
  match o with
  | OpInit buffer buffer_size =>
      in_uint32 buffer /\ in_uint32 buffer_size /\
      buffer + buffer_size < 2 ^ 32
  | OpAlloc size => in_uint32 size
  | OpCalloc num size => in_uint32 num /\ in_uint32 size
  | OpFreeToMarker marker => in_uint32 marker
  | _ => True
  end.

(** ** Instance invariants *)

(** Every field holds a value of its C type. *)
Definition fields_in_range (s : TStack_alloc) : Prop :=
  in_uint32 (buffer_start s) /\ in_uint32 (buffer_end s) /\
  in_uint32 (current s) /\ in_uint32 (capacity s).

(** The ordering the data model asks for. *)
Definition ordered (s : TStack_alloc) : Prop :=
  buffer_start s <= GetAlignedStart s /\
  GetAlignedStart s <= current s /\
  current s <= buffer_end s.

(** An initialized instance (state "Ready"). *)
Definition Ready (s : TStack_alloc) : Prop :=
  fields_in_range s /\ ordered s.


(** What is known of [current] modulo the alignment after a successful call:
    [StackAlloc_Init], [StackAlloc_FreeToMarker] and [StackAlloc_Reset] leave
    it on a boundary, an allocation leaves it a block length past one, and
    the remaining operations do not move it. *)
Definition cursor_after (o : operation) (s s' : TStack_alloc) : Prop :=
  match o with
  | OpInit _ _ | OpFreeToMarker _ | OpReset =>
      current s' mod STACK_ALLOC_ALIGNMENT = 0
  | OpAlloc size =>
      current s' mod STACK_ALLOC_ALIGNMENT = size mod STACK_ALLOC_ALIGNMENT
  | OpCalloc num size =>
      current s' mod STACK_ALLOC_ALIGNMENT
      = (num * size) mod STACK_ALLOC_ALIGNMENT
  | OpGetMarker | OpGetCapacity | OpGetUsed | OpGetAvailable | OpValidate =>
      s' = s
  end.

(** The operations that start by rounding the cursor up. *)
Definition rounds_cursor_up (o : operation) : bool :=
  match o with
  | OpAlloc _ | OpCalloc _ _ => true
  | _ => false
  end.

(** [capacity] is the length of the region between the two bounds. *)
Definition sized (s : TStack_alloc) : Prop :=
  capacity s = buffer_end s - buffer_start s.

(** The bytes between [buffer_start] and the first address the allocator
    hands out. *)
Definition leading_padding (s : TStack_alloc) : Z :=
  GetAlignedStart s - buffer_start s.

(** The operations that only read the instance. *)
Definition read_only (o : operation) : bool :=
  match o with
  | OpGetMarker | OpGetCapacity | OpGetUsed | OpGetAvailable | OpValidate =>
      true
  | _ => false
  end.

(** ** The test cases ([stack_alloc_test.c]) *)

(** [#define TEST_BUFFER_SIZE 1024U] *)
Definition TEST_BUFFER_SIZE : Z := 1024.

(** [TEST_ASSERT(cond, msg)]: when [cond] fails the test case returns
    [FALSE] at once (the message it prints is left out); otherwise the rest
    of the test case runs. *)
Definition TEST_ASSERT (cond rest : bool) : bool :=
  if cond then rest else false.

(** [==] on result codes, which are [uint8] values. *)
Definition error_eqb (a b : TStack_alloc_error) : bool :=
  error_code a =? error_code b.

(** A field of the local variable [sa], read after calls through [&sa]. *)
Definition field (f : TStack_alloc -> Z) (sa : option TStack_alloc) : Z :=
  match sa with
  | Some s => f s
  | None => 0
  end.

(** Each test case takes the address of the static array [g_test_buffer] and
    the contents that its uninitialized local [sa] happens to have. *)

Definition test_init_basic (g_test_buffer : Z) (sa : TStack_alloc) : bool :=
  let (err, sa) := StackAlloc_Init (Some sa) g_test_buffer TEST_BUFFER_SIZE in
  TEST_ASSERT (error_eqb err STACK_ALLOC_OK) (
  TEST_ASSERT (field buffer_start sa =? g_test_buffer) (
  TEST_ASSERT (field buffer_end sa
               =? to_uint32 (g_test_buffer + TEST_BUFFER_SIZE)) (
  TEST_ASSERT (field capacity sa =? TEST_BUFFER_SIZE) (
  let (ptr, sa) := StackAlloc_Alloc sa 1 in
  TEST_ASSERT (negb (ptr =? NULL_PTR)) true)))).

Definition test_init_invalid_params (g_test_buffer : Z) (sa : TStack_alloc)
  : bool :=
  let (err, _) := StackAlloc_Init None g_test_buffer TEST_BUFFER_SIZE in
  TEST_ASSERT (error_eqb err STACK_ALLOC_ERROR_INVALID_PARAM) (
  let (err, sa) := StackAlloc_Init (Some sa) NULL_PTR TEST_BUFFER_SIZE in
  TEST_ASSERT (error_eqb err STACK_ALLOC_ERROR_INVALID_PARAM) (
  let (err, sa) := StackAlloc_Init sa g_test_buffer 0 in
  TEST_ASSERT (error_eqb err STACK_ALLOC_ERROR_INVALID_PARAM) true)).

Definition test_alloc_basic (g_test_buffer : Z) (sa : TStack_alloc) : bool :=
  let (_, sa) := StackAlloc_Init (Some sa) g_test_buffer TEST_BUFFER_SIZE in
  let (ptr1, sa) := StackAlloc_Alloc sa 10 in
  TEST_ASSERT (negb (ptr1 =? NULL_PTR)) (
  let (ptr2, sa) := StackAlloc_Alloc sa 20 in
  TEST_ASSERT (negb (ptr2 =? NULL_PTR)) (
  TEST_ASSERT (ptr2 >? ptr1) (
  let used := StackAlloc_GetUsed sa in
  let expected_min := 30 in
  TEST_ASSERT (used >=? expected_min) true))).

Definition test_alloc_zero_size (g_test_buffer : Z) (sa : TStack_alloc)
  : bool :=
  let (_, sa) := StackAlloc_Init (Some sa) g_test_buffer TEST_BUFFER_SIZE in
  let (ptr, sa) := StackAlloc_Alloc sa 0 in
  TEST_ASSERT (ptr =? NULL_PTR) true.

Definition test_alloc_null_sa : bool :=
  let (ptr, _) := StackAlloc_Alloc None 10 in
  TEST_ASSERT (ptr =? NULL_PTR) true.

Definition test_alloc_overflow (g_test_buffer : Z) (sa : TStack_alloc)
  : bool :=
  let (_, sa) := StackAlloc_Init (Some sa) g_test_buffer TEST_BUFFER_SIZE in
  let avail := StackAlloc_GetAvailable sa in
  let (ptr, sa) := StackAlloc_Alloc sa (to_uint32 (avail + 1)) in
  TEST_ASSERT (ptr =? NULL_PTR) true.

Definition test_reset (g_test_buffer : Z) (sa : TStack_alloc) : bool :=
  let (_, sa) := StackAlloc_Init (Some sa) g_test_buffer TEST_BUFFER_SIZE in
  let (ptr, sa) := StackAlloc_Alloc sa 100 in
  TEST_ASSERT (negb (ptr =? NULL_PTR)) (
  let used_before := StackAlloc_GetUsed sa in
  TEST_ASSERT (used_before >? 0) (
  let sa := StackAlloc_Reset sa in
  let used_after := StackAlloc_GetUsed sa in
  TEST_ASSERT (used_after =? 0) (
  let _ := StackAlloc_Reset None in
  true))).

Definition test_capacity_used_available (g_test_buffer : Z)
  (sa : TStack_alloc) : bool :=
  let (_, sa) := StackAlloc_Init (Some sa) g_test_buffer TEST_BUFFER_SIZE in
  let cap := StackAlloc_GetCapacity sa in
  TEST_ASSERT (cap =? TEST_BUFFER_SIZE) (
  let used := StackAlloc_GetUsed sa in
  TEST_ASSERT (used =? 0) (
  let avail := StackAlloc_GetAvailable sa in
  TEST_ASSERT ((avail >? 0) && (avail <=? TEST_BUFFER_SIZE)) (
  TEST_ASSERT (StackAlloc_GetCapacity None =? 0) (
  TEST_ASSERT (StackAlloc_GetUsed None =? 0) (
  TEST_ASSERT (StackAlloc_GetAvailable None =? 0) true))))).

Definition test_validate (g_test_buffer : Z) (sa : TStack_alloc) : bool :=
  let err := StackAlloc_Validate None in
  TEST_ASSERT (negb (error_eqb err STACK_ALLOC_OK)) (
  let (err, sa) := StackAlloc_Init (Some sa) g_test_buffer TEST_BUFFER_SIZE in
  TEST_ASSERT (error_eqb err STACK_ALLOC_OK) (
  let err := StackAlloc_Validate sa in
  TEST_ASSERT (error_eqb err STACK_ALLOC_OK) true)).

Definition test_free_to_marker_behavior (g_test_buffer : Z)
  (sa : TStack_alloc) : bool :=
  let (_, sa) := StackAlloc_Init (Some sa) g_test_buffer TEST_BUFFER_SIZE in
  let (a, sa) := StackAlloc_Alloc sa 10 in
  let (b, sa) := StackAlloc_Alloc sa 20 in
  let (c, sa) := StackAlloc_Alloc sa 30 in
  TEST_ASSERT (negb (a =? NULL_PTR) && negb (b =? NULL_PTR)
               && negb (c =? NULL_PTR)) (
  let (err, sa) := StackAlloc_FreeToMarker sa b in
  TEST_ASSERT (error_eqb err STACK_ALLOC_OK) (
  let (err, sa) := StackAlloc_FreeToMarker sa c in
  TEST_ASSERT (negb (error_eqb err STACK_ALLOC_OK)) true)).

(** The instances the public interface produces: the one a successful
    [StackAlloc_Init] on a buffer of the address space leaves, and every one
    a later call leaves, as long as no allocation fails with the cursor in
    the last seven addresses of the address space (there [AlignUp] wraps to
    [0] and [StackAlloc_Alloc] moves [current] while returning
    [NULL_PTR]). *)
Inductive Initialized : TStack_alloc -> Prop :=
| initialized_by_Init (s0 s : TStack_alloc) (buffer buffer_size : Z) :
    well_formed (OpInit buffer buffer_size) ->
    StackAlloc_Init (Some s0) buffer buffer_size = (STACK_ALLOC_OK, Some s) ->
    Initialized s
| initialized_by_call (s s' : TStack_alloc) (m : memory) (o : operation) :
    Initialized s ->
    well_formed o ->
    (rounds_cursor_up o = true ->
     succeeded (fst (call o (Some s, m))) = true \/ current s <= 2 ^ 32 - 8) ->
    fst (snd (call o (Some s, m))) = Some s' ->
    Initialized s'.

(** ** Concrete instances used in the examples *)

(** A 1024-byte buffer at the odd address 13 (aligned start 16) after a
    10-byte allocation. *)
Definition odd_start_alloc_10 : TStack_alloc := mkStack_alloc 13 1037 26 1024.

(** The 15-byte buffer at the top of memory after the allocation of one more
    byte has wrapped: [current] is 1. *)
Definition top_of_memory_wrapped : TStack_alloc :=
  mkStack_alloc 4294967280 4294967295 1 15.


(** A 1024-byte buffer at address 8, freshly initialized. *)
Definition fresh_1024 : TStack_alloc := mkStack_alloc 8 1032 8 1024.

(** The same instance after [StackAlloc_Alloc (.., 10)]. *)
Definition after_alloc_10 : TStack_alloc := mkStack_alloc 8 1032 18 1024.

(** A 15-byte buffer that ends at the last address, [0xFFFFFFFF], with nine
    bytes handed out. *)
Definition top_of_memory : TStack_alloc :=
  mkStack_alloc 4294967280 4294967295 4294967289 15.

(** An instance whose fields hold arbitrary values, before any
    initialization. *)
Definition scratch : TStack_alloc := mkStack_alloc 0 0 0 0.

(** A byte memory holding [0xFF] everywhere. *)
Definition dirty_memory : memory := fun _ => 255.

(** ** Arithmetic of [to_uint32] and [AlignUp] *)

Lemma two_32 : 2 ^ 32 = 4294967296.
Proof. reflexivity. Qed.

Lemma to_uint32_range z : in_uint32 (to_uint32 z).
Proof.
  unfold in_uint32, to_uint32. apply Z.mod_pos_bound. reflexivity.
Qed.

Lemma to_uint32_small z : in_uint32 z -> to_uint32 z = z.
Proof. unfold in_uint32, to_uint32. intros H. now apply Z.mod_small. Qed.

Lemma to_uint32_wrap z : 2 ^ 32 <= z < 2 * 2 ^ 32 -> to_uint32 z = z - 2 ^ 32.
Proof.
  unfold to_uint32. rewrite two_32. intros H.
  symmetry. apply (Z.mod_unique z 4294967296 1); lia.
Qed.

Lemma SIZE_MAX_value : SIZE_MAX = 2 ^ 32 - 1.
Proof. reflexivity. Qed.

(** Unfolds the scalar layer and hands the euclidean divisions to [lia]. *)
Ltac word_arith :=
  unfold in_uint32, to_uint32, STACK_ALLOC_ALIGNMENT, NULL_PTR in *;
  rewrite ?two_32 in *;
  Z.div_mod_to_equations; lia.

(** [AlignUp] either rounds up within the address space or, for the last
    seven addresses, wraps around to [0]. *)
Lemma AlignUp_cases a :
  in_uint32 a ->
  let r := AlignUp a STACK_ALLOC_ALIGNMENT in
  (a <= r < a + 8 /\ r < 2 ^ 32) \/ (r = 0 /\ 2 ^ 32 - 8 < a).
Proof.
  intros Ha r. subst r. unfold AlignUp.
  destruct (a mod STACK_ALLOC_ALIGNMENT =? 0) eqn:E.
  - left. word_arith.
  - apply Z.eqb_neq in E.
    destruct (Z_lt_ge_dec (a + (8 - a mod 8)) (2 ^ 32)) as [Hlt | Hge].
    + left. rewrite to_uint32_small by word_arith. word_arith.
    + right. unfold STACK_ALLOC_ALIGNMENT in *.
      rewrite to_uint32_wrap by word_arith. word_arith.
Qed.

Lemma AlignUp_range a : in_uint32 a -> in_uint32 (AlignUp a STACK_ALLOC_ALIGNMENT).
Proof.
  intros Ha. destruct (AlignUp_cases a Ha) as [H | H]; unfold in_uint32 in *; lia.
Qed.

Lemma AlignUp_aligned a :
  in_uint32 a -> AlignUp a STACK_ALLOC_ALIGNMENT mod STACK_ALLOC_ALIGNMENT = 0.
Proof.
  intros Ha. unfold AlignUp.
  destruct (a mod STACK_ALLOC_ALIGNMENT =? 0) eqn:E.
  - now apply Z.eqb_eq in E.
  - apply Z.eqb_neq in E.
    destruct (Z_lt_ge_dec (a + (8 - a mod 8)) (2 ^ 32)) as [Hlt | Hge].
    + rewrite to_uint32_small by word_arith. word_arith.
    + unfold STACK_ALLOC_ALIGNMENT in *.
      rewrite to_uint32_wrap by word_arith. word_arith.
Qed.

(** No aligned address lies between an address and its round-up. *)
Lemma AlignUp_least a x :
  in_uint32 a ->
  a <= x < AlignUp a STACK_ALLOC_ALIGNMENT ->
  x mod STACK_ALLOC_ALIGNMENT <> 0.
Proof.
  intros Ha Hx.
  pose proof (AlignUp_aligned a Ha) as Hal.
  destruct (AlignUp_cases a Ha) as [H | H]; cbv zeta in H.
  - word_arith.
  - lia.
Qed.

Lemma AlignUp_fixed a :
  a mod STACK_ALLOC_ALIGNMENT = 0 -> AlignUp a STACK_ALLOC_ALIGNMENT = a.
Proof. intros H. unfold AlignUp. now rewrite H. Qed.

(** The mask test of [StackAlloc_FreeToMarker] is the divisibility test. *)
Lemma mask_is_mod a :
  Z.land a (STACK_ALLOC_ALIGNMENT - 1) = a mod STACK_ALLOC_ALIGNMENT.
Proof.
  change (STACK_ALLOC_ALIGNMENT - 1) with (Z.ones 3).
  change STACK_ALLOC_ALIGNMENT with (2 ^ 3).
  apply Z.land_ones. lia.
Qed.

(** ** [StackAlloc_Alloc] *)




(** ** [StackAlloc_FreeToMarker] *)

(** The three results of [StackAlloc_FreeToMarker], by the test that decides
    each, with the new contents of the instance. *)
Lemma StackAlloc_FreeToMarker_cases (s : TStack_alloc) (marker : Z) :
  (marker = NULL_PTR /\
   StackAlloc_FreeToMarker (Some s) marker =
     (STACK_ALLOC_ERROR_INVALID_PARAM, Some s)) \/
  (marker <> NULL_PTR /\
   (~ (buffer_start s <= marker < current s) \/
    marker mod STACK_ALLOC_ALIGNMENT <> 0) /\
   StackAlloc_FreeToMarker (Some s) marker =
     (STACK_ALLOC_ERROR_INVALID_MARKER, Some s)) \/
  (marker <> NULL_PTR /\
   buffer_start s <= marker < current s /\
   marker mod STACK_ALLOC_ALIGNMENT = 0 /\
   StackAlloc_FreeToMarker (Some s) marker =
     (STACK_ALLOC_OK, Some (set_current s marker))).
Proof.
  unfold StackAlloc_FreeToMarker. cbv zeta.
  destruct (Z.eqb_spec marker NULL_PTR) as [E0 | E0]; [now left | right].
  destruct (Z.ltb_spec marker (buffer_start s)) as [E1 | E1]; cbn [orb].
  { left. repeat split; trivial. left. lia. }
  destruct (Z.geb_spec marker (current s)) as [E2 | E2].
  { left. repeat split; trivial. left. lia. }
  rewrite mask_is_mod. cbn [negb andb].
  destruct (Z.eqb_spec (marker mod STACK_ALLOC_ALIGNMENT) 0) as [E3 | E3];
    cbn [negb].
  - right. repeat split; trivial; lia.
  - left. repeat split; trivial. now right.
Qed.

(** C2: [StackAlloc_FreeToMarker] returns [INVALID_PARAM] exactly when the
    instance or the marker is null; with both present it returns
    [INVALID_MARKER] exactly when the marker is outside
    [[buffer_start, current)] (a marker equal to [current] included) or is
    not a multiple of the alignment; otherwise it returns [OK] and sets
    [current] to the marker.  Whenever the result is not [OK], the instance
    is unchanged. *)
Theorem StackAlloc_FreeToMarker_spec (sa : option TStack_alloc) (marker : Z) :
  let absent := sa = None \/ marker = NULL_PTR in
  let bad_marker :=
    exists s, sa = Some s /\
      (~ (buffer_start s <= marker < current s) \/
       marker mod STACK_ALLOC_ALIGNMENT <> 0) in
  let result := fst (StackAlloc_FreeToMarker sa marker) in
  let sa' := snd (StackAlloc_FreeToMarker sa marker) in
  (result = STACK_ALLOC_ERROR_INVALID_PARAM <-> absent) /\
  (result = STACK_ALLOC_ERROR_INVALID_MARKER <-> ~ absent /\ bad_marker) /\
  (result = STACK_ALLOC_OK <-> ~ absent /\ ~ bad_marker) /\
  (result = STACK_ALLOC_OK ->
   exists s, sa = Some s /\ sa' = Some (set_current s marker)) /\
  (result <> STACK_ALLOC_OK -> sa' = sa) /\
  (forall s, sa = Some s -> current s = marker ->
   result <> STACK_ALLOC_OK).
Proof.
  cbv zeta. destruct sa as [s | ].
  { destruct (StackAlloc_FreeToMarker_cases s marker)
      as [(Hm & ->) | [(Hm & Hbad & ->) | (Hm & Hin & Hal & ->)]];
      cbn [fst snd]; repeat split;
      try discriminate; try congruence;
      try (intros [K | K]; [discriminate K | contradiction]);
      try (intros [K _]; exfalso; apply K; now right);
      try (intros [_ K]; exfalso; apply K; exists s; now split);
      try (intros (s' & [= <-] & [K | K]); contradiction);
      try (intros [_ (s' & [= <-] & [K | K])]; contradiction);
      try (intros _; now right);
      try (exists s; now split);
      try (intros s' [= <-] Heq; lia). }
  cbn; repeat split; try discriminate; try congruence;
    try (intros _; now left);
    try (intros [K _]; exfalso; apply K; now left).
Qed.

(** ** [StackAlloc_Init] *)

(** The structure [StackAlloc_Init] writes once its parameters are accepted. *)
Lemma StackAlloc_Init_cases (s : TStack_alloc) (buffer buffer_size : Z) :
  let stamped :=
    mkStack_alloc buffer (to_uint32 (buffer + buffer_size))
      (AlignUp buffer STACK_ALLOC_ALIGNMENT) buffer_size in
  ((buffer = NULL_PTR \/ buffer_size < STACK_ALLOC_ALIGNMENT) /\
   StackAlloc_Init (Some s) buffer buffer_size =
     (STACK_ALLOC_ERROR_INVALID_PARAM, Some s)) \/
  (buffer <> NULL_PTR /\ STACK_ALLOC_ALIGNMENT <= buffer_size /\
   current stamped >= buffer_end stamped /\
   StackAlloc_Init (Some s) buffer buffer_size =
     (STACK_ALLOC_ERROR_OUT_OF_MEMORY, Some stamped)) \/
  (buffer <> NULL_PTR /\ STACK_ALLOC_ALIGNMENT <= buffer_size /\
   current stamped < buffer_end stamped /\
   StackAlloc_Init (Some s) buffer buffer_size =
     (STACK_ALLOC_OK, Some stamped)).
Proof.
  intros stamped. unfold StackAlloc_Init.
  destruct (Z.eqb_spec buffer NULL_PTR) as [E0 | E0]; cbn [orb].
  { left. split; [now left | reflexivity]. }
  destruct (Z.ltb_spec buffer_size STACK_ALLOC_ALIGNMENT) as [E1 | E1].
  { left. split; [now right | reflexivity]. }
  right. cbv zeta.
  unfold GetAlignedStart, set_current, set_capacity, set_buffer_end,
    set_buffer_start; cbn [buffer_start buffer_end current capacity].
  fold stamped.
  destruct (Z.geb_spec (AlignUp buffer STACK_ALLOC_ALIGNMENT)
              (to_uint32 (buffer + buffer_size))) as [E2 | E2].
  - left. repeat split; trivial. cbn. lia.
  - right. repeat split; trivial.
Qed.

(** C3: [StackAlloc_Init] returns [INVALID_PARAM] exactly when the handle is
    null, the buffer is null or [buffer_size] is below the alignment; past
    that check it returns [OUT_OF_MEMORY] exactly when the rounded-up start
    is at or past [buffer_end]; on success [buffer_start] is the buffer
    address, [buffer_end] is [buffer_start + buffer_size] (in the pointer
    arithmetic of the target, and the exact sum for a buffer that lies in the
    address space), [capacity] is [buffer_size] and [current] is the aligned
    start; the byte memory is not written. *)
Theorem StackAlloc_Init_spec (sa : option TStack_alloc) (m : memory)
  (buffer buffer_size : Z) :
  let rejected :=
    sa = None \/ buffer = NULL_PTR \/ buffer_size < STACK_ALLOC_ALIGNMENT in
  let alignedStart := AlignUp buffer STACK_ALLOC_ALIGNMENT in
  let bufferEnd := to_uint32 (buffer + buffer_size) in
  let result := fst (StackAlloc_Init sa buffer buffer_size) in
  let sa' := snd (StackAlloc_Init sa buffer buffer_size) in
  (result = STACK_ALLOC_ERROR_INVALID_PARAM <-> rejected) /\
  (result = STACK_ALLOC_ERROR_OUT_OF_MEMORY <->
   ~ rejected /\ alignedStart >= bufferEnd) /\
  (result = STACK_ALLOC_OK <-> ~ rejected /\ alignedStart < bufferEnd) /\
  (result = STACK_ALLOC_OK ->
   exists s', sa' = Some s' /\
     buffer_start s' = buffer /\
     buffer_end s' = bufferEnd /\
     capacity s' = buffer_size /\
     current s' = alignedStart /\
     GetAlignedStart s' = alignedStart) /\
  (in_uint32 buffer -> in_uint32 buffer_size -> buffer + buffer_size < 2 ^ 32 ->
   bufferEnd = buffer + buffer_size) /\
  snd (call (OpInit buffer buffer_size) (sa, m)) = (sa', m).
Proof.
  cbv zeta.
  assert (Hexact : in_uint32 buffer -> in_uint32 buffer_size ->
                   buffer + buffer_size < 2 ^ 32 ->
                   to_uint32 (buffer + buffer_size) = buffer + buffer_size).
  { intros Hb Hn Hsum. apply to_uint32_small. word_arith. }
  assert (Hcall : snd (call (OpInit buffer buffer_size) (sa, m)) =
                  (snd (StackAlloc_Init sa buffer buffer_size), m)).
  { cbn [call]. now destruct (StackAlloc_Init sa buffer buffer_size). }
  destruct sa as [s | ].
  2:{ cbn [StackAlloc_Init fst snd].
      repeat split; trivial; try discriminate;
        try (intros _; now left);
        try (intros [K _]; exfalso; apply K; now left). }
  destruct (StackAlloc_Init_cases s buffer buffer_size)
    as [(Hrej & Heq) | [(Hb & Hn & Hcmp & Heq) | (Hb & Hn & Hcmp & Heq)]];
    try (cbn [buffer_start buffer_end current capacity] in Hcmp);
    rewrite Heq in *; cbn [fst snd];
    repeat split; trivial; try discriminate;
    try (intros _; now right);
    try (intros [K _]; exfalso; apply K; now right);
    try (intros [_ K]; lia);
    try (intros [K | [K | K]]; [discriminate K | contradiction | lia]);
    try lia.
  eexists. split; [reflexivity | ]. repeat split.
Qed.

(** [StackAlloc_Init] never reports [OUT_OF_MEMORY] for a buffer whose
    one-past-the-end address exists: eight bytes always leave room after the
    round-up. *)
Lemma StackAlloc_Init_Ready (s : TStack_alloc) (buffer buffer_size : Z) :
  well_formed (OpInit buffer buffer_size) ->
  StackAlloc_Init (Some s) buffer buffer_size =
    (STACK_ALLOC_ERROR_INVALID_PARAM, Some s) \/
  exists s', StackAlloc_Init (Some s) buffer buffer_size =
               (STACK_ALLOC_OK, Some s') /\
    Ready s' /\ current s' = GetAlignedStart s' /\ buffer_start s' = buffer.
Proof.
  intros (Hb & Hn & Hsum).
  destruct (StackAlloc_Init_cases s buffer buffer_size)
    as [(Hrej & Heq) | [(Hnz & Hsz & Hcmp & Heq) | (Hnz & Hsz & Hcmp & Heq)]];
    [now left | exfalso | right];
    cbn [buffer_start buffer_end current capacity] in Hcmp;
    rewrite to_uint32_small in * by word_arith;
    pose proof (AlignUp_cases buffer Hb) as Hal; cbv zeta in Hal.
  - word_arith.
  - eexists. split; [exact Heq | ].
    unfold Ready, fields_in_range, ordered, GetAlignedStart;
      cbn [buffer_start buffer_end current capacity].
    repeat split; try word_arith.
Qed.

(** ** Successful and failed allocations *)

(** The two ways out of [StackAlloc_Alloc] on a present instance.  In the
    second one the sum did not wrap and fits below [buffer_end]. *)
Lemma StackAlloc_Alloc_cases (s : TStack_alloc) (size : Z) :
  in_uint32 (current s) -> in_uint32 size ->
  let p := AlignUp (current s) STACK_ALLOC_ALIGNMENT in
  StackAlloc_Alloc (Some s) size = (NULL_PTR, Some s) \/
  (size <> 0 /\ p + size < 2 ^ 32 /\ p + size <= buffer_end s /\
   StackAlloc_Alloc (Some s) size = (p, Some (set_current s (p + size)))).
Proof.
  intros Hcur Hsize p. unfold StackAlloc_Alloc. fold p.
  pose proof (AlignUp_range _ Hcur) as Hp. fold p in Hp.
  destruct (Z.eqb_spec size 0) as [E0 | E0]; [now left | ].
  cbv zeta.
  destruct (Z_lt_ge_dec (p + size) (2 ^ 32)) as [Hlt | Hge].
  - rewrite to_uint32_small by word_arith.
    destruct (Z.ltb_spec (p + size) p) as [E1 | E1]; cbn [orb]; [now left | ].
    destruct (Z.gtb_spec (p + size) (buffer_end s)) as [E2 | E2]; [now left | ].
    right. repeat split; trivial; lia.
  - rewrite to_uint32_wrap by word_arith.
    destruct (Z.ltb_spec (p + size - 2 ^ 32) p) as [E1 | E1]; cbn [orb];
      [now left | word_arith].
Qed.

(** An allocation that hands out an address: the address is the round-up of
    the cursor, without wrap-around, and the cursor moves just past the
    block. *)
Lemma StackAlloc_Alloc_success (s : TStack_alloc) (size : Z) :
  in_uint32 (current s) -> in_uint32 size ->
  fst (StackAlloc_Alloc (Some s) size) <> NULL_PTR ->
  let p := fst (StackAlloc_Alloc (Some s) size) in
  p = AlignUp (current s) STACK_ALLOC_ALIGNMENT /\
  p mod STACK_ALLOC_ALIGNMENT = 0 /\
  current s <= p /\ 0 < size /\ p + size <= buffer_end s /\
  snd (StackAlloc_Alloc (Some s) size) = Some (set_current s (p + size)).
Proof.
  intros Hcur Hsize Hp p. subst p.
  destruct (StackAlloc_Alloc_cases s size Hcur Hsize)
    as [Heq | (Hnz & Hsum & Hend & Heq)]; rewrite Heq in *; cbn [fst snd] in *.
  - contradiction.
  - pose proof (AlignUp_aligned _ Hcur) as Hal.
    destruct (AlignUp_cases _ Hcur) as [H | H]; cbv zeta in H.
    + repeat split; trivial; word_arith.
    + unfold NULL_PTR in Hp. lia.
Qed.

(** What [StackAlloc_Calloc] does once its size checks pass. *)
Lemma StackAlloc_Calloc_delegates (sa : option TStack_alloc) (m : memory)
  (num size : Z) :
  num <> 0 -> size <> 0 -> num <= SIZE_MAX / size ->
  let total := to_uint32 (num * size) in
  let p := fst (StackAlloc_Alloc sa total) in
  StackAlloc_Calloc sa m num size =
    (p, snd (StackAlloc_Alloc sa total),
     if p =? NULL_PTR then m else mem_set m p 0 total).
Proof.
  intros Hn Hs Hle total p. subst p. unfold StackAlloc_Calloc. fold total.
  destruct (Z.eqb_spec num 0) as [E | _]; [contradiction | ].
  destruct (Z.eqb_spec size 0) as [E | _]; [contradiction | ]. cbn [orb].
  destruct (Z.gtb_spec num (SIZE_MAX / size)) as [E | _]; [lia | ].
  destruct (StackAlloc_Alloc sa total) as [p sa']. cbn [fst snd].
  now destruct (p =? NULL_PTR).
Qed.

(** Under the division guard the product fits in a [uint32]. *)
Lemma guarded_product_exact (num size : Z) :
  in_uint32 num -> in_uint32 size ->
  size <> 0 -> num <= SIZE_MAX / size ->
  to_uint32 (num * size) = num * size.
Proof.
  intros Hn Hs Hnz Hle. apply to_uint32_small.
  change SIZE_MAX with 4294967295 in Hle.
  unfold in_uint32 in *. rewrite two_32 in *.
  assert (Hq : size * (4294967295 / size) <= 4294967295)
    by (apply Z.mul_div_le; lia).
  set (q := 4294967295 / size) in *.
  split; nia.
Qed.

(** ** Returned addresses *)

(** On an instance whose fields are in order, the address a successful
    [StackAlloc_Alloc] or [StackAlloc_Calloc] returns is a multiple of the
    alignment and lies in [[buffer_start, buffer_end)]. *)
Theorem allocation_aligned_within_buffer (s : TStack_alloc) (m : memory)
  (num size : Z) :
  Ready s -> in_uint32 num -> in_uint32 size ->
  let p := fst (StackAlloc_Alloc (Some s) size) in
  let q := fst (fst (StackAlloc_Calloc (Some s) m num size)) in
  (p <> NULL_PTR ->
   p mod STACK_ALLOC_ALIGNMENT = 0 /\ buffer_start s <= p < buffer_end s) /\
  (q <> NULL_PTR ->
   q mod STACK_ALLOC_ALIGNMENT = 0 /\ buffer_start s <= q < buffer_end s).
Proof.
  intros [Hrange Hord] Hnum Hsize p q.
  destruct Hrange as (_ & _ & Hcur & _). destruct Hord as (H1 & H2 & H3).
  assert (Halloc : forall n, in_uint32 n ->
            fst (StackAlloc_Alloc (Some s) n) <> NULL_PTR ->
            fst (StackAlloc_Alloc (Some s) n) mod STACK_ALLOC_ALIGNMENT = 0 /\
            buffer_start s <= fst (StackAlloc_Alloc (Some s) n) < buffer_end s).
  { intros n Hn Hp.
    destruct (StackAlloc_Alloc_success s n Hcur Hn Hp)
      as (_ & Hal & Hge & Hpos & Hend & _).
    split; [exact Hal | lia]. }
  split; [now apply Halloc | ].
  subst q. unfold StackAlloc_Calloc.
  destruct ((num =? 0) || (size =? 0)); [now cbn | ].
  destruct (num >? SIZE_MAX / size); [now cbn | ].
  specialize (Halloc (to_uint32 (num * size)) (to_uint32_range _)).
  destruct (StackAlloc_Alloc (Some s) (to_uint32 (num * size))) as [r sa'].
  cbn [fst] in Halloc.
  destruct (negb (r =? NULL_PTR)); cbn [fst]; exact Halloc.
Qed.

Lemma allocation_aligned_within_buffer_witness :
  Ready fresh_1024 /\
  fst (StackAlloc_Alloc (Some fresh_1024) 10) mod STACK_ALLOC_ALIGNMENT = 0 /\
  buffer_start fresh_1024 <= fst (StackAlloc_Alloc (Some fresh_1024) 10)
    < buffer_end fresh_1024 /\
  fst (fst (StackAlloc_Calloc (Some fresh_1024) dirty_memory 5 4))
    mod STACK_ALLOC_ALIGNMENT = 0.
Proof.
  assert (Hr : Ready fresh_1024) by (vm_compute; intuition discriminate).
  assert (H5 : in_uint32 5) by (vm_compute; intuition discriminate).
  assert (H4 : in_uint32 4) by (vm_compute; intuition discriminate).
  assert (H10 : in_uint32 10) by (vm_compute; intuition discriminate).
  split; [exact Hr | ].
  destruct (allocation_aligned_within_buffer fresh_1024 dirty_memory 5 10
              Hr H5 H10) as [Ha _].
  destruct (allocation_aligned_within_buffer fresh_1024 dirty_memory 5 4
              Hr H5 H4) as [_ Hc].
  destruct Ha as [Hal Hin]; [vm_compute; discriminate | ].
  destruct Hc as [Hcal _]; [vm_compute; discriminate | ].
  split; [exact Hal | split; [exact Hin | exact Hcal]].
Defined.

(** ** [StackAlloc_GetMarker] *)

(** C6: [StackAlloc_GetMarker] returns [current] for a present instance and
    [NULL_PTR] for a null handle, and a call of it changes neither the
    instance nor the memory. *)
Theorem StackAlloc_GetMarker_spec (sa : option TStack_alloc) (m : memory) :
  (forall s, sa = Some s -> StackAlloc_GetMarker sa = current s) /\
  (sa = None -> StackAlloc_GetMarker sa = NULL_PTR) /\
  call OpGetMarker (sa, m) = (RetPtr (StackAlloc_GetMarker sa), (sa, m)).
Proof.
  split; [ | split].
  - now intros s ->.
  - now intros ->.
  - reflexivity.
Qed.

(** ** [StackAlloc_Calloc] *)

Lemma mem_set_inside (m : memory) (dst value n a : Z) :
  dst <= a < dst + n -> mem_set m dst value n a = value mod 256.
Proof.
  intros H. unfold mem_set.
  destruct (Z.leb_spec dst a); destruct (Z.ltb_spec a (dst + n)); cbn; trivial; lia.
Qed.

Lemma mem_set_outside (m : memory) (dst value n a : Z) :
  ~ (dst <= a < dst + n) -> mem_set m dst value n a = m a.
Proof.
  intros H. unfold mem_set.
  destruct (Z.leb_spec dst a); destruct (Z.ltb_spec a (dst + n)); cbn; trivial; lia.
Qed.

(** C7: [StackAlloc_Calloc] returns [NULL_PTR], changing nothing, when [num]
    is [0], [size] is [0] or [num > SIZE_MAX / size]; otherwise the product
    [num * size] fits, the call is [StackAlloc_Alloc] on that total (same
    returned address, same new instance, [NULL_PTR] handed on with the memory
    untouched), and after a successful call every byte of the returned block
    is [0] while all other bytes keep their value. *)
Theorem StackAlloc_Calloc_spec (sa : option TStack_alloc) (m : memory)
  (num size : Z) :
  in_uint32 num -> in_uint32 size ->
  let guard := num = 0 \/ size = 0 \/ num > SIZE_MAX / size in
  let total := num * size in
  let p := fst (fst (StackAlloc_Calloc sa m num size)) in
  let sa' := snd (fst (StackAlloc_Calloc sa m num size)) in
  let m' := snd (StackAlloc_Calloc sa m num size) in
  (guard -> StackAlloc_Calloc sa m num size = (NULL_PTR, sa, m)) /\
  (~ guard ->
   to_uint32 (num * size) = total /\
   (p, sa') = StackAlloc_Alloc sa total /\
   (p = NULL_PTR -> m' = m) /\
   (p <> NULL_PTR ->
    (forall a, p <= a < p + total -> m' a = 0) /\
    (forall a, ~ (p <= a < p + total) -> m' a = m a))).
Proof.
  intros Hnum Hsize. cbv zeta. split.
  - intros Hg. unfold StackAlloc_Calloc.
    destruct (Z.eqb_spec num 0) as [E | E]; [reflexivity | ].
    destruct (Z.eqb_spec size 0) as [E' | E']; [reflexivity | ]. cbn [orb].
    destruct (Z.gtb_spec num (SIZE_MAX / size)) as [G | G]; [reflexivity | ].
    exfalso. destruct Hg as [Hg | [Hg | Hg]]; [contradiction | contradiction | lia].
  - intros Hg.
    assert (Hn : num <> 0) by (intros E; apply Hg; now left).
    assert (Hs : size <> 0) by (intros E; apply Hg; right; now left).
    assert (Hle : num <= SIZE_MAX / size).
    { destruct (Z_le_gt_dec num (SIZE_MAX / size)) as [H | H]; [exact H | ].
      exfalso. apply Hg. right; now right. }
    pose proof (guarded_product_exact num size Hnum Hsize Hs Hle) as Hexact.
    rewrite (StackAlloc_Calloc_delegates sa m num size Hn Hs Hle).
    rewrite Hexact. cbn [fst snd].
    split; [reflexivity | ].
    split; [now destruct (StackAlloc_Alloc sa (num * size)) | ].
    split.
    + intros ->. reflexivity.
    + intros Hp. apply Z.eqb_neq in Hp. rewrite Hp. split; intros a Ha.
      * now rewrite mem_set_inside.
      * now rewrite mem_set_outside.
Qed.

Lemma StackAlloc_Calloc_spec_witness :
  in_uint32 5 /\ in_uint32 4 /\
  fst (fst (StackAlloc_Calloc (Some fresh_1024) dirty_memory 5 4)) = 8 /\
  dirty_memory 27 = 255 /\
  snd (StackAlloc_Calloc (Some fresh_1024) dirty_memory 5 4) 27 = 0.
Proof.
  assert (H5 : in_uint32 5) by (vm_compute; intuition discriminate).
  assert (H4 : in_uint32 4) by (vm_compute; intuition discriminate).
  split; [exact H5 | split; [exact H4 | ]].
  destruct (StackAlloc_Calloc_spec (Some fresh_1024) dirty_memory 5 4 H5 H4)
    as [_ Hrun].
  destruct Hrun as (_ & _ & _ & Hzero).
  - intros H. vm_compute in H. intuition discriminate.
  - destruct Hzero as [Hz _]; [vm_compute; discriminate | ].
    split; [reflexivity | split; [reflexivity | ]].
    apply Hz. vm_compute. split; [discriminate | reflexivity].
Defined.

(** ** The failing paths of [StackAlloc_Init] *)

(** C9: when [StackAlloc_Init] returns [OUT_OF_MEMORY] the instance has
    already been overwritten: [buffer_start], [buffer_end] and [capacity]
    hold the new values and [current] is the aligned start, at or past
    [buffer_end].  Only the [INVALID_PARAM] path hands the instance back as
    it was; every other result comes with the stamped structure, and there
    are inputs on which [OUT_OF_MEMORY] is returned with the instance
    changed. *)
Theorem StackAlloc_Init_failure_paths (sa : option TStack_alloc)
  (buffer buffer_size : Z) :
  let result := fst (StackAlloc_Init sa buffer buffer_size) in
  let sa' := snd (StackAlloc_Init sa buffer buffer_size) in
  let stamped :=
    mkStack_alloc buffer (to_uint32 (buffer + buffer_size))
      (AlignUp buffer STACK_ALLOC_ALIGNMENT) buffer_size in
  (result = STACK_ALLOC_ERROR_OUT_OF_MEMORY ->
   sa' = Some stamped /\
   current stamped = GetAlignedStart stamped /\
   current stamped >= buffer_end stamped) /\
  (result = STACK_ALLOC_ERROR_INVALID_PARAM -> sa' = sa) /\
  (result <> STACK_ALLOC_ERROR_INVALID_PARAM -> sa' = Some stamped) /\
  (exists s b n,
     in_uint32 b /\ in_uint32 n /\
     fst (StackAlloc_Init (Some s) b n) = STACK_ALLOC_ERROR_OUT_OF_MEMORY /\
     snd (StackAlloc_Init (Some s) b n) <> Some s).
Proof.
  cbv zeta. repeat apply conj.
  4:{ exists scratch, 4294967288, 8.
      repeat split; try (vm_compute; congruence). }
  all: destruct sa as [s | ]; [ | cbn; congruence].
  all: destruct (StackAlloc_Init_cases s buffer buffer_size)
      as [(Hrej & Heq) | [(Hb & Hn & Hcmp & Heq) | (Hb & Hn & Hcmp & Heq)]];
    rewrite Heq; cbn [fst snd]; try congruence.
  intros _. repeat split. exact Hcmp.
Qed.

(** ** Markers and the aligned start *)

(** An aligned address at or after [buffer_start] is at or after the aligned
    start. *)
Lemma aligned_address_above_start (s : TStack_alloc) (a : Z) :
  in_uint32 (buffer_start s) ->
  buffer_start s <= a -> a mod STACK_ALLOC_ALIGNMENT = 0 ->
  GetAlignedStart s <= a.
Proof.
  intros Hbs Hge Hal.
  destruct (Z_le_gt_dec (GetAlignedStart s) a) as [H | H]; [exact H | ].
  exfalso. apply (AlignUp_least (buffer_start s) a Hbs); [ | exact Hal].
  unfold GetAlignedStart in H. lia.
Qed.

(** C10: a marker that [StackAlloc_FreeToMarker] accepts lies in
    [[aligned start, current)], although the code compares it with
    [buffer_start] only: no multiple of the alignment lies in
    [[buffer_start, aligned start)], and the accepted marker is one.  The
    instance after the call therefore still has its aligned start at or
    below [current]. *)
Theorem accepted_marker_above_aligned_start (s : TStack_alloc) (marker : Z) :
  in_uint32 (buffer_start s) ->
  fst (StackAlloc_FreeToMarker (Some s) marker) = STACK_ALLOC_OK ->
  GetAlignedStart s <= marker < current s /\
  (forall a, buffer_start s <= a < GetAlignedStart s ->
             a mod STACK_ALLOC_ALIGNMENT <> 0) /\
  exists s', snd (StackAlloc_FreeToMarker (Some s) marker) = Some s' /\
    current s' = marker /\
    GetAlignedStart s' = GetAlignedStart s /\
    GetAlignedStart s' <= current s'.
Proof.
  intros Hbs Hok.
  assert (Hleast : forall a, buffer_start s <= a < GetAlignedStart s ->
                             a mod STACK_ALLOC_ALIGNMENT <> 0).
  { intros a Ha. now apply (AlignUp_least (buffer_start s) a). }
  destruct (StackAlloc_FreeToMarker_cases s marker)
    as [(Hm & Heq) | [(Hm & Hbad & Heq) | (Hm & Hin & Hal & Heq)]];
    rewrite Heq in *; cbn [fst snd] in *; try discriminate.
  pose proof (aligned_address_above_start s marker Hbs (proj1 Hin) Hal) as Hge.
  split; [lia | ]. split; [exact Hleast | ].
  eexists. split; [reflexivity | ]. cbn. repeat split. exact Hge.
Qed.

Lemma accepted_marker_above_aligned_start_witness :
  in_uint32 (buffer_start odd_start_alloc_10) /\
  fst (StackAlloc_FreeToMarker (Some odd_start_alloc_10) 16) = STACK_ALLOC_OK /\
  buffer_start odd_start_alloc_10 = 13 /\
  GetAlignedStart odd_start_alloc_10 = 16 /\
  GetAlignedStart odd_start_alloc_10 <= 16 < current odd_start_alloc_10 /\
  14 mod STACK_ALLOC_ALIGNMENT <> 0 /\
  exists s', snd (StackAlloc_FreeToMarker (Some odd_start_alloc_10) 16)
             = Some s' /\
    GetAlignedStart s' <= current s'.
Proof.
  assert (Hb : in_uint32 (buffer_start odd_start_alloc_10))
    by (vm_compute; intuition discriminate).
  assert (Hok : fst (StackAlloc_FreeToMarker (Some odd_start_alloc_10) 16)
                = STACK_ALLOC_OK) by reflexivity.
  split; [exact Hb | split; [exact Hok | ]].
  split; [reflexivity | split; [reflexivity | ]].
  destruct (accepted_marker_above_aligned_start odd_start_alloc_10 16 Hb Hok)
    as (Hin & Hleast & s' & Hs' & _ & _ & Hle).
  split; [exact Hin | ].
  split; [apply (Hleast 14); vm_compute; intuition discriminate | ].
  exists s'. split; [exact Hs' | exact Hle].
Defined.

(** ** Preservation of the instance invariant *)

Lemma Ready_set_current (s : TStack_alloc) (c : Z) :
  Ready s -> GetAlignedStart s <= c <= buffer_end s ->
  Ready (set_current s c).
Proof.
  intros [(Hbs & Hbe & Hcur & Hcap) (H1 & H2 & H3)] Hc.
  unfold Ready, fields_in_range, ordered, GetAlignedStart in *.
  cbn [set_current buffer_start buffer_end current capacity].
  unfold in_uint32 in *. repeat split; lia.
Qed.

Lemma Ready_aligned_start (s : TStack_alloc) :
  Ready s -> GetAlignedStart s mod STACK_ALLOC_ALIGNMENT = 0.
Proof. intros [(Hbs & _) _]. now apply AlignUp_aligned. Qed.

(** An allocation keeps the invariant when it hands out an address, and also
    when it fails, as long as rounding the cursor up stays inside the address
    space. *)
Lemma StackAlloc_Alloc_Ready (s : TStack_alloc) (size : Z) :
  Ready s -> in_uint32 size ->
  fst (StackAlloc_Alloc (Some s) size) <> NULL_PTR \/ current s <= 2 ^ 32 - 8 ->
  exists s', snd (StackAlloc_Alloc (Some s) size) = Some s' /\ Ready s' /\
    (fst (StackAlloc_Alloc (Some s) size) <> NULL_PTR ->
     current s' mod STACK_ALLOC_ALIGNMENT = size mod STACK_ALLOC_ALIGNMENT).
Proof.
  intros Hr Hsize Hpre.
  pose proof Hr as [(_ & _ & Hcur & _) (H1 & H2 & H3)].
  destruct (StackAlloc_Alloc_cases s size Hcur Hsize)
    as [Heq | (Hnz & Hsum & Hend & Heq)]; rewrite Heq in *; cbn [fst snd] in *.
  - exists s. split; [reflexivity | ]. split; [exact Hr | ].
    intros H. now elim H.
  - eexists. split; [reflexivity | ].
    pose proof (AlignUp_aligned _ Hcur) as Hal.
    destruct (AlignUp_cases _ Hcur) as [H | H]; cbv zeta in H.
    + split.
      * apply Ready_set_current; [exact Hr | word_arith].
      * intros _. cbn [set_current current]. word_arith.
    + exfalso. unfold NULL_PTR in Hpre. lia.
Qed.

(** The instance part of [StackAlloc_Calloc] is that of the allocation it
    delegates to, or nothing at all. *)
Lemma StackAlloc_Calloc_instance (sa : option TStack_alloc) (m : memory)
  (num size : Z) :
  in_uint32 num -> in_uint32 size ->
  (fst (fst (StackAlloc_Calloc sa m num size)) = NULL_PTR /\
   snd (fst (StackAlloc_Calloc sa m num size)) = sa) \/
  (in_uint32 (num * size) /\
   fst (StackAlloc_Calloc sa m num size) = StackAlloc_Alloc sa (num * size)).
Proof.
  intros Hnum Hsize.
  destruct (Z.eq_dec num 0) as [E | Hn].
  { left. subst. now cbn. }
  destruct (Z.eq_dec size 0) as [E | Hs].
  { left. subst. unfold StackAlloc_Calloc. now rewrite orb_true_r. }
  destruct (Z_le_gt_dec num (SIZE_MAX / size)) as [Hle | Hgt].
  - right.
    pose proof (guarded_product_exact num size Hnum Hsize Hs Hle) as Hexact.
    rewrite (StackAlloc_Calloc_delegates sa m num size Hn Hs Hle).
    rewrite Hexact. cbn [fst].
    split; [rewrite <- Hexact; apply to_uint32_range | ].
    now destruct (StackAlloc_Alloc sa (num * size)).
  - left. unfold StackAlloc_Calloc.
    destruct ((num =? 0) || (size =? 0)); [now cbn | ].
    destruct (Z.gtb_spec num (SIZE_MAX / size)); [now cbn | lia].
Qed.

Lemma succeeded_pointer (p : Z) :
  succeeded (RetPtr p) = true <-> p <> NULL_PTR.
Proof.
  cbn [succeeded]. destruct (Z.eqb_spec p NULL_PTR); cbn; split;
    congruence.
Qed.

(** Every call on an initialized instance leaves an initialized instance
    behind; for an allocation this needs that it reports success or that the
    round-up of the cursor exists in the address space.  After a successful
    call [cursor_after] holds. *)
Lemma call_Ready (s : TStack_alloc) (m : memory) (o : operation) :
  Ready s -> well_formed o ->
  (rounds_cursor_up o = true ->
   succeeded (fst (call o (Some s, m))) = true \/ current s <= 2 ^ 32 - 8) ->
  exists s', fst (snd (call o (Some s, m))) = Some s' /\ Ready s' /\
    (succeeded (fst (call o (Some s, m))) = true -> cursor_after o s s').
Proof.
  intros Hr Hwf Hpre.
  assert (Hsame : forall r, call o (Some s, m) = (r, (Some s, m)) ->
            (succeeded r = true -> cursor_after o s s) ->
            exists s', fst (snd (call o (Some s, m))) = Some s' /\ Ready s' /\
              (succeeded (fst (call o (Some s, m))) = true ->
               cursor_after o s s')).
  { intros r Hc Hcur. exists s. rewrite Hc. cbn [fst snd].
    split; [reflexivity | split; [exact Hr | exact Hcur]]. }
  destruct o as [b n | size | num size | | marker | | | | | ];
    cbn [well_formed] in Hwf;
    try (eapply Hsame; [reflexivity | reflexivity]).
  - (* StackAlloc_Init *)
    cbn [call] in *.
    destruct (StackAlloc_Init_Ready s b n Hwf)
      as [Heq | (s' & Heq & Hr' & Hcur & Hbs)]; rewrite Heq in *;
      cbn [fst snd] in *.
    + exists s. split; [reflexivity | split; [exact Hr | discriminate]].
    + exists s'. split; [reflexivity | split; [exact Hr' | intros _]].
      cbn [cursor_after]. rewrite Hcur. now apply Ready_aligned_start.
  - (* StackAlloc_Alloc *)
    specialize (Hpre eq_refl). cbn [call] in *.
    pose proof (StackAlloc_Alloc_Ready s size Hr Hwf) as HA.
    destruct (StackAlloc_Alloc (Some s) size) as [p sa']. cbn [fst snd] in *.
    rewrite succeeded_pointer in *.
    destruct (HA Hpre) as (s' & -> & Hr' & Hres).
    exists s'. split; [reflexivity | split; [exact Hr' | ]].
      intros Hs. apply Hres. now apply succeeded_pointer.
  - (* StackAlloc_Calloc *)
    specialize (Hpre eq_refl). cbn [call] in *. destruct Hwf as [Hnum Hsize].
    destruct (StackAlloc_Calloc_instance (Some s) m num size Hnum Hsize)
      as [[Hp Hsa] | [Hrange Heq]];
      destruct (StackAlloc_Calloc (Some s) m num size) as [[p sa'] m'];
      cbn [fst snd] in *; rewrite succeeded_pointer in *.
    + subst. exists s. split; [reflexivity | split; [exact Hr | ]].
      intros H. apply succeeded_pointer in H. now elim H.
    + pose proof (StackAlloc_Alloc_Ready s (num * size) Hr Hrange) as HA.
      rewrite <- Heq in HA. cbn [fst snd] in HA.
      destruct (HA Hpre) as (s' & -> & Hr' & Hres).
      exists s'. split; [reflexivity | split; [exact Hr' | ]].
      intros Hs. apply Hres. now apply succeeded_pointer.
  - (* StackAlloc_FreeToMarker *)
    cbn [call] in *.
    destruct (StackAlloc_FreeToMarker_cases s marker)
      as [(Hm & Heq) | [(Hm & Hbad & Heq) | (Hm & Hin & Hal & Heq)]];
      rewrite Heq in *; cbn [fst snd] in *.
    + exists s. split; [reflexivity | split; [exact Hr | discriminate]].
    + exists s. split; [reflexivity | split; [exact Hr | discriminate]].
    + eexists. split; [reflexivity | ]. split; [ | intros _; exact Hal].
      pose proof Hr as [(Hbs & _) (_ & _ & H3)].
      apply Ready_set_current; [exact Hr | ].
      pose proof (aligned_address_above_start s marker Hbs (proj1 Hin) Hal).
      lia.
  - (* StackAlloc_Reset *)
    cbn [call fst snd StackAlloc_Reset] in *.
    eexists. split; [reflexivity | ]. split.
    + apply Ready_set_current; [exact Hr | ].
      destruct Hr as [_ (H1 & H2 & H3)]. lia.
    + intros _. cbn [cursor_after set_current current].
      now apply Ready_aligned_start.
Qed.

(** In [uint32] arithmetic the two accessors always add up to the distance
    from the aligned start to [buffer_end]; with the cursor between the two
    the sum is exact. *)
Lemma used_plus_available (s : TStack_alloc) :
  fields_in_range s ->
  to_uint32 (StackAlloc_GetUsed (Some s) + StackAlloc_GetAvailable (Some s))
  = to_uint32 (buffer_end s - GetAlignedStart s) /\
  (GetAlignedStart s <= current s <= buffer_end s ->
   StackAlloc_GetUsed (Some s) + StackAlloc_GetAvailable (Some s)
   = buffer_end s - GetAlignedStart s).
Proof.
  intros (Hbs & Hbe & Hcur & _).
  pose proof (AlignUp_range _ Hbs) as Has. fold (GetAlignedStart s) in Has.
  cbn [StackAlloc_GetUsed StackAlloc_GetAvailable]. cbv zeta. split.
  - unfold to_uint32.
    rewrite <- Z.add_mod by (rewrite two_32; lia). f_equal. lia.
  - intros Hord. rewrite !to_uint32_small by word_arith. lia.
Qed.

(** Whatever a call does, it leaves a structure of in-range fields behind. *)
Lemma call_fields_in_range (s : TStack_alloc) (m : memory) (o : operation) :
  Ready s -> well_formed o ->
  exists s', fst (snd (call o (Some s, m))) = Some s' /\ fields_in_range s'.
Proof.
  intros Hr Hwf.
  assert (Hal : forall n, in_uint32 n ->
            exists s', snd (StackAlloc_Alloc (Some s) n) = Some s' /\
                       fields_in_range s').
  { intros n Hn. pose proof Hr as [Hf _]. pose proof Hf as (? & ? & Hcur & ?).
    destruct (StackAlloc_Alloc_cases s n Hcur Hn)
      as [Heq | (Hnz & Hsum & Hend & Heq)]; rewrite Heq; cbn [snd].
    - now exists s.
    - eexists. split; [reflexivity | ].
      pose proof (AlignUp_range _ Hcur).
      unfold fields_in_range, in_uint32 in *.
      cbn [set_current buffer_start buffer_end current capacity].
      repeat split; lia. }
  destruct (rounds_cursor_up o) eqn:Hup.
  - destruct o; try discriminate Hup; cbn [call well_formed] in *.
    + destruct (Hal size Hwf) as (s' & Hs' & Hf).
      destruct (StackAlloc_Alloc (Some s) size) as [p sa']. cbn [fst snd] in *.
      now exists s'.
    + destruct Hwf as [Hnum Hsize].
      destruct (StackAlloc_Calloc_instance (Some s) m num size Hnum Hsize)
        as [[Hp Hsa] | [Hrange Heq]];
        destruct (StackAlloc_Calloc (Some s) m num size) as [[p sa'] m'];
        cbn [fst snd] in *.
      * subst. exists s. split; [reflexivity | apply Hr].
      * destruct (Hal (num * size) Hrange) as (s' & Hs' & Hf).
        rewrite <- Heq in Hs'. cbn [snd] in Hs'. now exists s'.
  - destruct (call_Ready s m o Hr Hwf) as (s' & Hs' & Hr' & _);
      [congruence | ].
    exists s'. split; [exact Hs' | apply Hr'].
Qed.

(** ** Invariants after a call *)

(** Every instance the interface produces is in order. *)
Lemma Initialized_Ready (s : TStack_alloc) : Initialized s -> Ready s.
Proof.
  induction 1 as [s0 s b n Hwf Hinit | s s' m o _ IH Hwf Hpre Hpost].
  - destruct (StackAlloc_Init_Ready s0 b n Hwf)
      as [Heq | (s1 & Heq & Hr & _)]; rewrite Heq in Hinit;
      [discriminate | ].
    injection Hinit as <-. exact Hr.
  - destruct (call_Ready s m o IH Hwf Hpre) as (s1 & Hs1 & Hr & _).
    rewrite Hpost in Hs1. injection Hs1 as <-. exact Hr.
Qed.

(** C4, as the code has it by design: take an instance that a successful
    [StackAlloc_Init] and any later public operations have produced, no
    allocation among them having failed with the cursor in the last seven
    addresses of the address space.  After every public operation that
    returns successfully on it the fields are ordered
    [buffer_start <= aligned start <= current <= buffer_end] and the
    instance is again such an instance.  [current] is a multiple of the
    alignment after [StackAlloc_Init], [StackAlloc_Reset] and
    [StackAlloc_FreeToMarker]; after a successful allocation it is the
    returned aligned address plus the block length, so it has the residue of
    that length; the accessors leave the instance as it is. *)
Theorem successful_call_keeps_invariant (s : TStack_alloc) (m : memory)
  (o : operation) :
  Initialized s -> well_formed o ->
  succeeded (fst (call o (Some s, m))) = true ->
  exists s', fst (snd (call o (Some s, m))) = Some s' /\
    fields_in_range s' /\
    buffer_start s' <= GetAlignedStart s' /\
    GetAlignedStart s' <= current s' /\
    current s' <= buffer_end s' /\
    cursor_after o s s' /\
    Initialized s'.
Proof.
  intros Hi Hwf Hok. pose proof (Initialized_Ready s Hi) as Hr.
  destruct (call_Ready s m o Hr Hwf) as (s' & Hs' & [Hf (H1 & H2 & H3)] & Hc).
  - intros _. now left.
  - exists s'. repeat split; trivial; try apply Hf.
    + now apply Hc.
    + apply (initialized_by_call s s' m o Hi Hwf); [intros _; now left | exact Hs'].
Qed.

Lemma successful_call_keeps_invariant_witness :
  Initialized after_alloc_10 /\ well_formed (OpAlloc 20) /\
  succeeded (fst (call (OpAlloc 20) (Some after_alloc_10, dirty_memory)))
  = true /\
  exists s', fst (snd (call (OpAlloc 20) (Some after_alloc_10, dirty_memory)))
             = Some s' /\
    GetAlignedStart s' <= current s' /\
    current s' <= buffer_end s' /\
    current s' mod STACK_ALLOC_ALIGNMENT = 20 mod STACK_ALLOC_ALIGNMENT.
Proof.
  assert (Hi0 : Initialized fresh_1024).
  { apply (initialized_by_Init scratch fresh_1024 8 1024);
      [vm_compute; intuition discriminate | reflexivity]. }
  assert (Hi : Initialized after_alloc_10).
  { apply (initialized_by_call fresh_1024 after_alloc_10 dirty_memory
             (OpAlloc 10) Hi0);
      [vm_compute; intuition discriminate | intros _; now left | reflexivity]. }
  assert (Hw : well_formed (OpAlloc 20)) by (vm_compute; intuition discriminate).
  split; [exact Hi | split; [exact Hw | split; [reflexivity | ]]].
  destruct (successful_call_keeps_invariant after_alloc_10 dirty_memory
              (OpAlloc 20) Hi Hw eq_refl)
    as (s' & Hs' & _ & _ & H2 & H3 & Hc & _).
  exists s'. split; [exact Hs' | split; [exact H2 | split; [exact H3 | exact Hc]]].
Defined.

(** The second half of C4 as the spec words it fails: after a successful
    [StackAlloc_Alloc] of 10 bytes on a fresh instance, [current] is 18, which
    is not a multiple of 8. *)
Lemma cursor_unaligned_after_allocation :
  Ready fresh_1024 /\ well_formed (OpAlloc 10) /\
  call (OpAlloc 10) (Some fresh_1024, dirty_memory)
  = (RetPtr 8, (Some after_alloc_10, dirty_memory)) /\
  succeeded (RetPtr 8) = true /\
  current after_alloc_10 = 18 /\
  current after_alloc_10 mod STACK_ALLOC_ALIGNMENT <> 0.
Proof.
  repeat split; try (vm_compute; congruence).
Qed.

(** After every public operation on an instance whose fields are in order,
    [GetUsed + GetAvailable] equals [buffer_end - aligned start] in
    [uint32] arithmetic, and as an equation between integers except after an
    allocation that fails with the cursor within the last seven addresses of
    the address space. *)
Theorem used_plus_available_after_call (s : TStack_alloc) (m : memory)
  (o : operation) :
  Ready s -> well_formed o ->
  exists s', fst (snd (call o (Some s, m))) = Some s' /\
    to_uint32 (StackAlloc_GetUsed (Some s') + StackAlloc_GetAvailable (Some s'))
    = to_uint32 (buffer_end s' - GetAlignedStart s') /\
    ((rounds_cursor_up o = true ->
      succeeded (fst (call o (Some s, m))) = true \/ current s <= 2 ^ 32 - 8) ->
     StackAlloc_GetUsed (Some s') + StackAlloc_GetAvailable (Some s')
     = buffer_end s' - GetAlignedStart s').
Proof.
  intros Hr Hwf.
  destruct (call_fields_in_range s m o Hr Hwf) as (s' & Hs' & Hf).
  exists s'. split; [exact Hs' | ].
  destruct (used_plus_available s' Hf) as [Hmod Hexact].
  split; [exact Hmod | ].
  intros Hpre.
  destruct (call_Ready s m o Hr Hwf Hpre) as (s'' & Hs'' & [_ Hord] & _).
  rewrite Hs' in Hs''. injection Hs'' as <-.
  apply Hexact. destruct Hord as (_ & H2 & H3). now split.
Qed.

Lemma used_plus_available_after_call_witness :
  Ready fresh_1024 /\ well_formed (OpAlloc 10) /\
  StackAlloc_GetUsed (Some after_alloc_10)
  + StackAlloc_GetAvailable (Some after_alloc_10)
  = buffer_end after_alloc_10 - GetAlignedStart after_alloc_10.
Proof.
  assert (Hr : Ready fresh_1024) by (vm_compute; intuition discriminate).
  assert (Hw : well_formed (OpAlloc 10)) by (vm_compute; intuition discriminate).
  split; [exact Hr | split; [exact Hw | ]].
  destruct (used_plus_available_after_call fresh_1024 dirty_memory (OpAlloc 10)
              Hr Hw) as (s' & Hs' & _ & Hexact).
  injection Hs' as <-.
  apply Hexact. intros _. left. reflexivity.
Defined.

(** ** The corner of the address space *)

(** With the cursor within the last seven addresses, [AlignUp] wraps to [0]:
    [StackAlloc_Alloc] then returns [NULL_PTR] and still moves [current].  The
    accessors afterwards add up to the right distance only modulo [2^32]. *)
Example StackAlloc_Alloc_wraps_at_top :
  Ready top_of_memory /\
  StackAlloc_Alloc (Some top_of_memory) 1
  = (NULL_PTR, Some (set_current top_of_memory 1)) /\
  StackAlloc_GetUsed (Some (set_current top_of_memory 1)) = 17 /\
  StackAlloc_GetAvailable (Some (set_current top_of_memory 1)) = 4294967294 /\
  buffer_end top_of_memory - GetAlignedStart top_of_memory = 15.
Proof.
  repeat split; try (vm_compute; congruence).
Qed.

(** C5 fails on the code.  A 15-byte buffer at [0xFFFFFFF0] is initialized
    and 9 bytes are allocated, both with success; the allocation of one more
    byte returns [NULL_PTR] but leaves [current = 1], because [AlignUp] has
    wrapped to [0] and the overflow test of [StackAlloc_Alloc] looks at the
    sum only.  The next [StackAlloc_Alloc] of 4 bytes then succeeds and
    returns address 8, and so does [StackAlloc_Calloc] of one 4-byte
    element: the address is aligned but far outside
    [[buffer_start, buffer_end)]. *)
Theorem allocation_outside_buffer_after_wrap :
  let w0 := (Some scratch, dirty_memory) in
  let w1 := snd (call (OpInit 4294967280 15) w0) in
  let w2 := snd (call (OpAlloc 9) w1) in
  let w3 := snd (call (OpAlloc 1) w2) in
  well_formed (OpInit 4294967280 15) /\
  fst (call (OpInit 4294967280 15) w0) = RetError STACK_ALLOC_OK /\
  fst (call (OpAlloc 9) w1) = RetPtr 4294967280 /\
  fst (call (OpAlloc 1) w2) = RetPtr NULL_PTR /\
  fst w3 = Some top_of_memory_wrapped /\
  fst (call (OpAlloc 4) w3) = RetPtr 8 /\
  fst (call (OpCalloc 1 4) w3) = RetPtr 8 /\
  succeeded (RetPtr 8) = true /\
  ~ (buffer_start top_of_memory_wrapped <= 8
     < buffer_end top_of_memory_wrapped).
Proof.
  cbv zeta. repeat split; try reflexivity; try (vm_compute; discriminate).
  vm_compute. intros [H _]. now apply H.
Qed.

(** C8 fails on the code, by the same wrap-around.  After the same three
    calls (the last one a public operation on an initialized instance)
    [StackAlloc_GetUsed] returns 17 and [StackAlloc_GetAvailable] returns
    4294967294: their sum is 4294967311, while
    [buffer_end - aligned start] is 15. *)
Theorem used_plus_available_broken_after_wrap :
  let w0 := (Some scratch, dirty_memory) in
  let w1 := snd (call (OpInit 4294967280 15) w0) in
  let w2 := snd (call (OpAlloc 9) w1) in
  let w3 := snd (call (OpAlloc 1) w2) in
  fst (call (OpInit 4294967280 15) w0) = RetError STACK_ALLOC_OK /\
  fst (call (OpAlloc 9) w1) = RetPtr 4294967280 /\
  fst w2 = Some top_of_memory /\ Ready top_of_memory /\
  fst (call (OpAlloc 1) w2) = RetPtr NULL_PTR /\
  fst w3 = Some top_of_memory_wrapped /\
  fst (call OpGetUsed w3) = RetSize 17 /\
  fst (call OpGetAvailable w3) = RetSize 4294967294 /\
  17 + 4294967294 = 4294967311 /\
  buffer_end top_of_memory_wrapped - GetAlignedStart top_of_memory_wrapped
  = 15 /\
  StackAlloc_GetUsed (Some top_of_memory_wrapped)
  + StackAlloc_GetAvailable (Some top_of_memory_wrapped)
  <> buffer_end top_of_memory_wrapped
     - GetAlignedStart top_of_memory_wrapped.
Proof.
  cbv zeta. repeat split; try reflexivity; try (vm_compute; discriminate).
Qed.

(** The scenario of the test suite: 1024 bytes, blocks of 10 and 20 bytes,
    rewind to the second block, allocate 5 bytes there again. *)
Example scenario_1024 :
  let w0 := (Some scratch, dirty_memory) in
  let w1 := snd (call (OpInit 8 1024) w0) in
  let w2 := snd (call (OpAlloc 10) w1) in
  let w3 := snd (call (OpAlloc 20) w2) in
  let w4 := snd (call (OpFreeToMarker 24) w3) in
  fst (call (OpInit 8 1024) w0) = RetError STACK_ALLOC_OK /\
  fst (call (OpAlloc 10) w1) = RetPtr 8 /\
  fst (call (OpAlloc 20) w2) = RetPtr 24 /\
  fst (call OpGetUsed w3) = RetSize 36 /\
  fst (call OpGetAvailable w3) = RetSize 988 /\
  fst (call (OpFreeToMarker 24) w3) = RetError STACK_ALLOC_OK /\
  fst (call (OpAlloc 5) w4) = RetPtr 24 /\
  fst (call (OpFreeToMarker 24) w4) = RetError STACK_ALLOC_ERROR_INVALID_MARKER.
Proof.
  repeat split.
Qed.

(** * Further properties of the allocator *)

(** ** [AlignUp] for any alignment *)

(** As long as adding the alignment stays inside the address space,
    [AlignUp] returns the least multiple of the alignment at or above the
    address, less than one alignment away; multiples are fixed points, so
    rounding twice is rounding once. *)
Theorem AlignUp_least_multiple (address alignment : Z) :
  0 <= address -> 0 < alignment -> address + alignment <= 2 ^ 32 ->
  let r := AlignUp address alignment in
  r mod alignment = 0 /\
  address <= r < address + alignment /\
  (forall x, address <= x -> x mod alignment = 0 -> r <= x) /\
  (address mod alignment = 0 -> r = address) /\
  AlignUp r alignment = r.
Proof.
  intros Ha Hal Hfit r.
  assert (Hrem : 0 <= address mod alignment < alignment)
    by (apply Z.mod_pos_bound; lia).
  assert (Hr : r = if address mod alignment =? 0 then address
                   else address + (alignment - address mod alignment)).
  { subst r. unfold AlignUp. cbv zeta.
    destruct (Z.eqb_spec (address mod alignment) 0); [reflexivity | ].
    apply to_uint32_small. unfold in_uint32. lia. }
  assert (Hmod : r mod alignment = 0).
  { rewrite Hr. destruct (Z.eqb_spec (address mod alignment) 0) as [E | E];
      [exact E | ].
    replace (address + (alignment - address mod alignment))
      with ((address / alignment + 1) * alignment).
    - apply Z.mod_mul. lia.
    - pose proof (Z.div_mod address alignment). lia. }
  split; [exact Hmod | ].
  split; [rewrite Hr; destruct (Z.eqb_spec (address mod alignment) 0); lia | ].
  split.
  - intros x Hx Hxm. rewrite Hr.
    destruct (Z.eqb_spec (address mod alignment) 0) as [E | E]; [lia | ].
    pose proof (Z.div_mod address alignment) as Hd.
    pose proof (Z.div_mod x alignment) as Hdx. rewrite Hxm in Hdx.
    set (qa := address / alignment) in *. set (qx := x / alignment) in *.
    assert (Hq : qa < qx).
    { destruct (Z_lt_ge_dec qa qx) as [H | H]; [exact H | exfalso].
      assert (alignment * qx <= alignment * qa)
        by (apply Z.mul_le_mono_nonneg_l; lia).
      lia. }
    assert (alignment * (qa + 1) <= alignment * qx)
      by (apply Z.mul_le_mono_nonneg_l; lia).
    lia.
  - split.
    + intros E. rewrite Hr, E. reflexivity.
    + unfold AlignUp. cbv zeta. now rewrite Hmod.
Qed.

Lemma AlignUp_least_multiple_witness :
  0 <= 13 /\ 0 < 4 /\ 13 + 4 <= 2 ^ 32 /\ AlignUp 13 4 = 16 /\
  16 mod 4 = 0.
Proof.
  assert (H1 : 0 <= 13) by lia. assert (H2 : 0 < 4) by lia.
  assert (H3 : 13 + 4 <= 2 ^ 32) by (rewrite two_32; lia).
  repeat (split; [assumption | ]).
  split; [reflexivity | ].
  exact (proj1 (AlignUp_least_multiple 13 4 H1 H2 H3)).
Defined.

Lemma AlignUp_wraps_at_top (address : Z) :
  in_uint32 address -> 2 ^ 32 - 8 < address ->
  AlignUp address STACK_ALLOC_ALIGNMENT = 0.
Proof.
  intros Ha Htop.
  destruct (AlignUp_cases address Ha) as [H | H]; cbv zeta in H.
  - pose proof (AlignUp_aligned address Ha). word_arith.
  - apply H.
Qed.

(** In the last [alignment - 1] addresses the round-up of
    [STACK_ALLOC_ALIGNMENT] does not exist: [AlignUp] returns [0], below the
    address it was given. *)
Theorem AlignUp_wraps_to_zero (address : Z) :
  in_uint32 address -> 2 ^ 32 - STACK_ALLOC_ALIGNMENT < address ->
  AlignUp address STACK_ALLOC_ALIGNMENT = 0.
Proof.
  intros Ha Htop. now apply AlignUp_wraps_at_top.
Qed.

Lemma AlignUp_wraps_to_zero_witness :
  in_uint32 4294967289 /\
  2 ^ 32 - STACK_ALLOC_ALIGNMENT < 4294967289 /\
  AlignUp 4294967289 STACK_ALLOC_ALIGNMENT = 0.
Proof.
  assert (H1 : in_uint32 4294967289) by (unfold in_uint32; rewrite two_32; lia).
  assert (H2 : 2 ^ 32 - STACK_ALLOC_ALIGNMENT < 4294967289) by reflexivity.
  split; [exact H1 | split; [exact H2 | ]].
  exact (AlignUp_wraps_to_zero 4294967289 H1 H2).
Defined.

(** ** [StackAlloc_Validate] and initialization *)

Lemma StackAlloc_Validate_cases (s : TStack_alloc) :
  (StackAlloc_Validate (Some s) = STACK_ALLOC_OK /\
   buffer_start s <> NULL_PTR /\ buffer_end s <> NULL_PTR /\
   buffer_start s <= buffer_end s /\
   GetAlignedStart s <= current s <= buffer_end s) \/
  (StackAlloc_Validate (Some s) = STACK_ALLOC_ERROR_CORRUPTED_STATE /\
   ~ (buffer_start s <> NULL_PTR /\ buffer_end s <> NULL_PTR /\
      buffer_start s <= buffer_end s /\
      GetAlignedStart s <= current s <= buffer_end s)).
Proof.
  unfold StackAlloc_Validate. cbv zeta.
  destruct (Z.eqb_spec (buffer_start s) NULL_PTR) as [E1 | E1]; cbn [orb];
    [right; split; [reflexivity | tauto] | ].
  destruct (Z.eqb_spec (buffer_end s) NULL_PTR) as [E2 | E2];
    [right; split; [reflexivity | tauto] | ].
  destruct (Z.gtb_spec (buffer_start s) (buffer_end s)) as [E3 | E3];
    [right; split; [reflexivity | lia] | ].
  destruct (Z.ltb_spec (current s) (GetAlignedStart s)) as [E4 | E4]; cbn [orb];
    [right; split; [reflexivity | lia] | ].
  destruct (Z.gtb_spec (current s) (buffer_end s)) as [E5 | E5];
    [right; split; [reflexivity | lia] | ].
  left. repeat split; trivial; lia.
Qed.

Lemma Ready_validates (s : TStack_alloc) :
  Ready s -> buffer_start s <> NULL_PTR ->
  StackAlloc_Validate (Some s) = STACK_ALLOC_OK.
Proof.
  intros [(Hbs & Hbe & _) (H1 & H2 & H3)] Hnz.
  destruct (StackAlloc_Validate_cases s) as [[H _] | [_ H]]; [exact H | ].
  exfalso. apply H. unfold in_uint32, NULL_PTR in *. repeat split; lia.
Qed.

(** [StackAlloc_Validate] never writes and answers [OK] or
    [CORRUPTED_STATE] only; a null handle is corrupted.  For an instance
    whose buffer starts at a non-null address at most [2^32 - 8], it answers
    [OK] exactly on the states that satisfy the ordering
    [buffer_start <= aligned start <= current <= buffer_end]. *)
Theorem StackAlloc_Validate_iff_Ready (s : TStack_alloc) :
  fields_in_range s ->
  buffer_start s <> NULL_PTR -> buffer_start s <= 2 ^ 32 - 8 ->
  (StackAlloc_Validate (Some s) = STACK_ALLOC_OK <-> Ready s) /\
  (StackAlloc_Validate (Some s) <> STACK_ALLOC_OK ->
   StackAlloc_Validate (Some s) = STACK_ALLOC_ERROR_CORRUPTED_STATE) /\
  StackAlloc_Validate None = STACK_ALLOC_ERROR_CORRUPTED_STATE.
Proof.
  intros Hf Hnz Htop. split; [split | split; [ | reflexivity]].
  - intros Hok. split; [exact Hf | ].
    destruct (StackAlloc_Validate_cases s) as [(_ & _ & _ & _ & Hc) | [H _]];
      [ | congruence].
    destruct Hf as (Hbs & _).
    destruct (AlignUp_cases _ Hbs) as [H | H]; cbv zeta in H;
      unfold ordered, GetAlignedStart in *; lia.
  - intros Hr. now apply Ready_validates.
  - intros Hne.
    destruct (StackAlloc_Validate_cases s) as [[H _] | [H _]];
      [contradiction | exact H].
Qed.

Lemma StackAlloc_Validate_iff_Ready_witness :
  fields_in_range after_alloc_10 /\
  buffer_start after_alloc_10 <> NULL_PTR /\
  buffer_start after_alloc_10 <= 2 ^ 32 - 8 /\
  StackAlloc_Validate (Some after_alloc_10) = STACK_ALLOC_OK /\
  Ready after_alloc_10.
Proof.
  assert (Hf : fields_in_range after_alloc_10)
    by (vm_compute; intuition discriminate).
  assert (Hn : buffer_start after_alloc_10 <> NULL_PTR)
    by (vm_compute; discriminate).
  assert (Ht : buffer_start after_alloc_10 <= 2 ^ 32 - 8)
    by (vm_compute; discriminate).
  split; [exact Hf | split; [exact Hn | split; [exact Ht | ]]].
  split; [reflexivity | ].
  apply (proj1 (StackAlloc_Validate_iff_Ready after_alloc_10 Hf Hn Ht)).
  reflexivity.
Defined.

(** For a buffer that lies in the address space, [StackAlloc_Init] never
    answers [OUT_OF_MEMORY]: it succeeds exactly when the buffer is not null
    and holds at least one alignment unit.  The instance it leaves is in
    order whatever the structure held before, passes
    [StackAlloc_Validate], has [capacity = buffer_end - buffer_start], at
    most seven bytes of leading padding, nothing used, and everything past
    the padding available. *)
Theorem StackAlloc_Init_valid_buffer (s : TStack_alloc)
  (buffer buffer_size : Z) :
  well_formed (OpInit buffer buffer_size) ->
  let result := fst (StackAlloc_Init (Some s) buffer buffer_size) in
  let sa' := snd (StackAlloc_Init (Some s) buffer buffer_size) in
  result <> STACK_ALLOC_ERROR_OUT_OF_MEMORY /\
  (result = STACK_ALLOC_OK <->
   buffer <> NULL_PTR /\ STACK_ALLOC_ALIGNMENT <= buffer_size) /\
  (result = STACK_ALLOC_OK ->
   exists s', sa' = Some s' /\ Ready s' /\ sized s' /\
     0 <= leading_padding s' < STACK_ALLOC_ALIGNMENT /\
     StackAlloc_Validate sa' = STACK_ALLOC_OK /\
     StackAlloc_GetCapacity sa' = buffer_size /\
     StackAlloc_GetUsed sa' = 0 /\
     StackAlloc_GetAvailable sa' = buffer_size - leading_padding s').
Proof.
  intros Hwf. pose proof Hwf as (Hb & Hn & Hsum). cbv zeta.
  destruct (StackAlloc_Init_Ready s buffer buffer_size Hwf)
    as [Hrej | (s' & Hok & Hr & Hcur & Hbs)].
  - destruct (StackAlloc_Init_cases s buffer buffer_size)
      as [(Hwhy & Heq) | [(_ & _ & _ & Heq) | (_ & _ & _ & Heq)]];
      try congruence.
    rewrite Heq. cbn [fst snd].
    repeat split; try discriminate. intros [H1 H2]. destruct Hwhy; [tauto | lia].
  - destruct (StackAlloc_Init_cases s buffer buffer_size)
      as [(_ & Heq) | [(_ & _ & _ & Heq) | (Hnz & Hsz & _ & Heq)]];
      try congruence.
    rewrite Hok. cbn [fst snd].
    split; [discriminate | ]. split; [tauto | ]. intros _.
    assert (Hs' : s' = mkStack_alloc buffer
                         (to_uint32 (buffer + buffer_size))
                         (AlignUp buffer STACK_ALLOC_ALIGNMENT) buffer_size)
      by congruence.
    rewrite to_uint32_small in Hs' by word_arith. subst s'.
    eexists. split; [reflexivity | ]. split; [exact Hr | ].
    pose proof (AlignUp_cases buffer Hb) as Hal. cbv zeta in Hal.
    unfold sized, leading_padding, GetAlignedStart.
    cbn [StackAlloc_GetCapacity StackAlloc_GetUsed StackAlloc_GetAvailable
         buffer_start buffer_end current capacity]. cbv zeta.
    unfold GetAlignedStart. cbn [buffer_start].
    split; [lia | ].
    split; [word_arith | ].
    split; [apply Ready_validates; [exact Hr | exact Hnz] | ].
    split; [reflexivity | ].
    split.
    + rewrite Z.sub_diag. reflexivity.
    + rewrite to_uint32_small by word_arith. lia.
Qed.

Lemma StackAlloc_Init_valid_buffer_witness :
  well_formed (OpInit 13 1024) /\
  StackAlloc_Init (Some scratch) 13 1024
  = (STACK_ALLOC_OK, Some (mkStack_alloc 13 1037 16 1024)) /\
  StackAlloc_GetAvailable (snd (StackAlloc_Init (Some scratch) 13 1024))
  = 1021.
Proof.
  assert (Hw : well_formed (OpInit 13 1024))
    by (vm_compute; intuition discriminate).
  split; [exact Hw | split; [reflexivity | ]].
  destruct (StackAlloc_Init_valid_buffer scratch 13 1024 Hw)
    as (_ & _ & Hok).
  destruct (Hok eq_refl) as (s' & Hs' & _ & _ & _ & _ & _ & _ & Hav).
  injection Hs' as <-. exact Hav.
Defined.

(** ** What a call may change *)

(** Splits on the tests of the function at hand, outermost first. *)
Ltac split_tests :=
  repeat match goal with
         | |- context [if ?c then _ else _] => destruct c; cbn -[Z.div Z.modulo Z.pow]
         end.

(** The bounds of the buffer and [capacity] are written by
    [StackAlloc_Init] alone: every other operation, whether it succeeds or
    fails, leaves [buffer_start], [buffer_end] and [capacity] as they were,
    and the accessors, [StackAlloc_GetMarker] and [StackAlloc_Validate]
    change neither the instance nor the memory. *)
Theorem bounds_written_by_Init_only (s : TStack_alloc) (m : memory)
  (o : operation) :
  exists s', fst (snd (call o (Some s, m))) = Some s' /\
    match o with
    | OpInit _ _ => True
    | _ => buffer_start s' = buffer_start s /\
           buffer_end s' = buffer_end s /\
           capacity s' = capacity s
    end /\
    (read_only o = true -> snd (call o (Some s, m)) = (Some s, m)).
Proof.
  destruct o as [b n | size | num size | | marker | | | | | ];
    cbn [call read_only].
  - unfold StackAlloc_Init. split_tests; eexists; repeat split; discriminate.
  - unfold StackAlloc_Alloc. split_tests; eexists; repeat split; discriminate.
  - unfold StackAlloc_Calloc, StackAlloc_Alloc.
    split_tests; eexists; repeat split; discriminate.
  - eexists; repeat split.
  - unfold StackAlloc_FreeToMarker.
    split_tests; eexists; repeat split; discriminate.
  - eexists; repeat split; discriminate.
  - eexists; repeat split.
  - eexists; repeat split.
  - eexists; repeat split.
  - eexists; repeat split.
Qed.

(** Null safety: called with a null handle, every operation returns its
    neutral value ([INVALID_PARAM], [CORRUPTED_STATE] for
    [StackAlloc_Validate], [NULL_PTR], [0], nothing) and changes neither the
    handle nor a byte of memory. *)
Theorem null_handle_is_safe (m : memory) (o : operation) :
  snd (call o (None, m)) = (None, m) /\
  fst (call o (None, m)) =
    match o with
    | OpInit _ _ | OpFreeToMarker _ =>
        RetError STACK_ALLOC_ERROR_INVALID_PARAM
    | OpValidate => RetError STACK_ALLOC_ERROR_CORRUPTED_STATE
    | OpAlloc _ | OpCalloc _ _ | OpGetMarker => RetPtr NULL_PTR
    | OpGetCapacity | OpGetUsed | OpGetAvailable => RetSize 0
    | OpReset => RetVoid
    end.
Proof.
  destruct o; cbn [call]; try (split; reflexivity).
  unfold StackAlloc_Calloc. cbn [StackAlloc_Alloc].
  split_tests; split; reflexivity.
Qed.

(** The memory after [StackAlloc_Calloc]: untouched, or zeroed over the
    block that the underlying allocation returned. *)
Lemma StackAlloc_Calloc_memory (sa : option TStack_alloc) (m : memory)
  (num size : Z) :
  in_uint32 num -> in_uint32 size ->
  snd (StackAlloc_Calloc sa m num size) = m \/
  (in_uint32 (num * size) /\
   fst (StackAlloc_Alloc sa (num * size)) <> NULL_PTR /\
   snd (StackAlloc_Calloc sa m num size) =
     mem_set m (fst (StackAlloc_Alloc sa (num * size))) 0 (num * size)).
Proof.
  intros Hnum Hsize.
  destruct (Z.eq_dec num 0) as [E | Hn].
  { left. subst. now cbn. }
  destruct (Z.eq_dec size 0) as [E | Hs].
  { left. subst. unfold StackAlloc_Calloc. now rewrite orb_true_r. }
  destruct (Z_le_gt_dec num (SIZE_MAX / size)) as [Hle | Hgt].
  - pose proof (guarded_product_exact num size Hnum Hsize Hs Hle) as Hexact.
    rewrite (StackAlloc_Calloc_delegates sa m num size Hn Hs Hle).
    rewrite Hexact. cbn [snd].
    destruct (Z.eqb_spec (fst (StackAlloc_Alloc sa (num * size))) NULL_PTR)
      as [E | E]; [now left | right].
    split; [rewrite <- Hexact; apply to_uint32_range | now split].
  - left. unfold StackAlloc_Calloc.
    destruct ((num =? 0) || (size =? 0)); [now cbn | ].
    destruct (Z.gtb_spec num (SIZE_MAX / size)); [now cbn | lia].
Qed.

Lemma bounds_kept_or_init (s : TStack_alloc) (m : memory) (o : operation) :
  exists s', fst (snd (call o (Some s, m))) = Some s' /\
    ((buffer_start s' = buffer_start s /\ buffer_end s' = buffer_end s /\
      capacity s' = capacity s) \/
     exists b n, o = OpInit b n /\ well_formed o = well_formed (OpInit b n)).
Proof.
  destruct o as [b n | size | num size | | marker | | | | | ];
    cbn [call];
    try (eexists; split; [reflexivity | left; repeat split]).
  - destruct (StackAlloc_Init (Some s) b n) as [e [s' | ]] eqn:E.
    + exists s'. split; [reflexivity | right]. now exists b, n.
    + exfalso. revert E. unfold StackAlloc_Init. split_tests; discriminate.
  - unfold StackAlloc_Alloc. split_tests; eexists; split;
      try reflexivity; left; repeat split.
  - unfold StackAlloc_Calloc, StackAlloc_Alloc. split_tests; eexists; split;
      try reflexivity; left; repeat split.
  - unfold StackAlloc_FreeToMarker. split_tests; eexists; split;
      try reflexivity; left; repeat split.
Qed.

(** [capacity = buffer_end - buffer_start], once true, stays true through
    every operation, successful or not, [StackAlloc_Init] on another buffer
    included. *)
Theorem capacity_is_buffer_length (s : TStack_alloc) (m : memory)
  (o : operation) :
  sized s -> well_formed o ->
  exists s', fst (snd (call o (Some s, m))) = Some s' /\ sized s'.
Proof.
  intros Hsz Hwf.
  destruct (bounds_kept_or_init s m o) as (s' & Hs' & Hkeep).
  exists s'. split; [exact Hs' | ].
  destruct Hkeep as [(H1 & H2 & H3) | (b & n & -> & Hinit)].
  - unfold sized in *. congruence.
  - cbn [call] in Hs'. cbn [well_formed] in Hwf.
    destruct Hwf as (Hb & Hn & Hsum).
    destruct (StackAlloc_Init_cases s b n)
      as [(_ & Heq) | [(_ & _ & _ & Heq) | (_ & _ & _ & Heq)]];
      rewrite Heq in Hs'; cbn [fst snd] in Hs'; injection Hs' as <-;
      trivial; unfold sized; cbn [buffer_start buffer_end capacity];
      rewrite to_uint32_small by word_arith; lia.
Qed.

Lemma capacity_is_buffer_length_witness :
  sized fresh_1024 /\ well_formed (OpInit 4096 64) /\
  exists s', fst (snd (call (OpInit 4096 64) (Some fresh_1024, dirty_memory)))
             = Some s' /\ capacity s' = buffer_end s' - buffer_start s'.
Proof.
  assert (Hs : sized fresh_1024) by reflexivity.
  assert (Hw : well_formed (OpInit 4096 64))
    by (vm_compute; intuition discriminate).
  split; [exact Hs | split; [exact Hw | ]].
  exact (capacity_is_buffer_length fresh_1024 dirty_memory (OpInit 4096 64)
           Hs Hw).
Defined.

(** An instance that [StackAlloc_Validate] accepts is still accepted after
    every operation that reports success (and after every failed one that is
    not an allocation at the top of the address space). *)
Theorem validated_after_call (s : TStack_alloc) (m : memory) (o : operation) :
  Ready s -> buffer_start s <> NULL_PTR -> well_formed o ->
  (rounds_cursor_up o = true ->
   succeeded (fst (call o (Some s, m))) = true \/ current s <= 2 ^ 32 - 8) ->
  StackAlloc_Validate (fst (snd (call o (Some s, m)))) = STACK_ALLOC_OK.
Proof.
  intros Hr Hnz Hwf Hpre.
  destruct (call_Ready s m o Hr Hwf Hpre) as (s' & Hs' & Hr' & _).
  destruct (bounds_kept_or_init s m o) as (s'' & Hs'' & Hkeep).
  rewrite Hs'. rewrite Hs' in Hs''. injection Hs'' as <-.
  apply Ready_validates; [exact Hr' | ].
  destruct Hkeep as [(H1 & _) | (b & n & -> & _)]; [congruence | ].
  cbn [call] in Hs'.
  destruct (StackAlloc_Init_cases s b n)
    as [(_ & Heq) | [(Hb & _ & _ & Heq) | (Hb & _ & _ & Heq)]];
    rewrite Heq in Hs'; cbn [fst snd] in Hs'; injection Hs' as <-;
    trivial.
Qed.

Lemma validated_after_call_witness :
  Ready fresh_1024 /\ buffer_start fresh_1024 <> NULL_PTR /\
  well_formed (OpAlloc 10) /\
  StackAlloc_Validate
    (fst (snd (call (OpAlloc 10) (Some fresh_1024, dirty_memory))))
  = STACK_ALLOC_OK.
Proof.
  assert (Hr : Ready fresh_1024) by (vm_compute; intuition discriminate).
  assert (Hn : buffer_start fresh_1024 <> NULL_PTR)
    by (vm_compute; discriminate).
  assert (Hw : well_formed (OpAlloc 10))
    by (vm_compute; intuition discriminate).
  split; [exact Hr | split; [exact Hn | split; [exact Hw | ]]].
  apply (validated_after_call fresh_1024 dirty_memory (OpAlloc 10) Hr Hn Hw).
  intros _. left. reflexivity.
Defined.

(** ** Accounting *)

(** On an initialized instance whose [capacity] is the buffer length, what
    is used and what is available add up to the capacity minus the leading
    padding, which is less than one alignment unit; no accessor exceeds the
    capacity. *)
Theorem used_available_capacity (s : TStack_alloc) :
  Ready s -> sized s ->
  StackAlloc_GetUsed (Some s) + StackAlloc_GetAvailable (Some s)
  = StackAlloc_GetCapacity (Some s) - leading_padding s /\
  0 <= leading_padding s < STACK_ALLOC_ALIGNMENT /\
  0 <= StackAlloc_GetUsed (Some s) <= StackAlloc_GetCapacity (Some s) /\
  0 <= StackAlloc_GetAvailable (Some s) <= StackAlloc_GetCapacity (Some s) /\
  StackAlloc_GetUsed (Some s) = current s - GetAlignedStart s /\
  StackAlloc_GetAvailable (Some s) = buffer_end s - current s.
Proof.
  intros [Hf (H1 & H2 & H3)] Hsz.
  pose proof Hf as (Hbs & Hbe & Hcur & Hcap).
  pose proof (AlignUp_cases _ Hbs) as Hal. cbv zeta in Hal.
  unfold sized, leading_padding in *. fold (GetAlignedStart s) in Hal.
  cbn [StackAlloc_GetUsed StackAlloc_GetAvailable StackAlloc_GetCapacity].
  cbv zeta.
  rewrite !to_uint32_small by word_arith.
  unfold STACK_ALLOC_ALIGNMENT, in_uint32 in *.
  repeat split; lia.
Qed.

Lemma used_available_capacity_witness :
  Ready after_alloc_10 /\ sized after_alloc_10 /\
  StackAlloc_GetUsed (Some after_alloc_10) = 10 /\
  StackAlloc_GetAvailable (Some after_alloc_10) = 1014.
Proof.
  assert (Hr : Ready after_alloc_10) by (vm_compute; intuition discriminate).
  assert (Hs : sized after_alloc_10) by reflexivity.
  split; [exact Hr | split; [exact Hs | ]].
  destruct (used_available_capacity after_alloc_10 Hr Hs)
    as (_ & _ & _ & _ & Hu & Ha).
  split; [exact Hu | exact Ha].
Defined.



(** ** Sequences of allocations *)

(** Two allocations in a row never overlap: the second block starts at the
    round-up of the end of the first, at or after that end and less than one
    alignment unit past it. *)
Theorem successive_allocations_disjoint (s : TStack_alloc) (n1 n2 : Z) :
  fields_in_range s -> in_uint32 n1 -> in_uint32 n2 ->
  let p1 := fst (StackAlloc_Alloc (Some s) n1) in
  let sa1 := snd (StackAlloc_Alloc (Some s) n1) in
  let p2 := fst (StackAlloc_Alloc sa1 n2) in
  p1 <> NULL_PTR -> p2 <> NULL_PTR ->
  p2 = AlignUp (p1 + n1) STACK_ALLOC_ALIGNMENT /\
  p1 + n1 <= p2 < p1 + n1 + STACK_ALLOC_ALIGNMENT /\
  p2 + n2 <= buffer_end s.
Proof.
  intros Hf Hn1 Hn2. cbv zeta. intros Hp1 Hp2.
  pose proof Hf as (Hbs & Hbe & Hcur & Hcap).
  destruct (StackAlloc_Alloc_success s n1 Hcur Hn1 Hp1)
    as (Hpeq & Hal & Hge & Hpos & Hend & Hs1).
  rewrite Hs1 in *.
  set (p1 := fst (StackAlloc_Alloc (Some s) n1)) in *.
  assert (Hcur1 : in_uint32 (current (set_current s (p1 + n1)))).
  { cbn [set_current current]. pose proof (AlignUp_range _ Hcur).
    rewrite <- Hpeq in *. unfold in_uint32 in *. lia. }
  destruct (StackAlloc_Alloc_success _ n2 Hcur1 Hn2 Hp2)
    as (Hpeq2 & Hal2 & Hge2 & Hpos2 & Hend2 & _).
  cbn [set_current current buffer_end] in *.
  split; [exact Hpeq2 | ]. split; [ | exact Hend2].
  destruct (AlignUp_cases _ Hcur1) as [H | H]; cbv zeta in H;
    cbn [set_current current] in H; rewrite <- Hpeq2 in H.
  - unfold STACK_ALLOC_ALIGNMENT. lia.
  - unfold NULL_PTR in Hp2. lia.
Qed.

Lemma successive_allocations_disjoint_witness :
  fields_in_range fresh_1024 /\ in_uint32 10 /\ in_uint32 20 /\
  fst (StackAlloc_Alloc (Some fresh_1024) 10) = 8 /\
  fst (StackAlloc_Alloc (snd (StackAlloc_Alloc (Some fresh_1024) 10)) 20)
  = AlignUp (8 + 10) STACK_ALLOC_ALIGNMENT.
Proof.
  assert (Hf : fields_in_range fresh_1024)
    by (vm_compute; intuition discriminate).
  assert (H1 : in_uint32 10) by (vm_compute; intuition discriminate).
  assert (H2 : in_uint32 20) by (vm_compute; intuition discriminate).
  split; [exact Hf | split; [exact H1 | split; [exact H2 | ]]].
  split; [reflexivity | ].
  apply (successive_allocations_disjoint fresh_1024 10 20 Hf H1 H2);
    vm_compute; discriminate.
Defined.

(** A request larger than [StackAlloc_GetAvailable] is always answered with
    [NULL_PTR], and the instance is left as it was unless the cursor sits in
    the last seven addresses of the address space. *)
Theorem oversized_allocation_rejected (s : TStack_alloc) (size : Z) :
  Ready s -> in_uint32 size ->
  StackAlloc_GetAvailable (Some s) < size ->
  fst (StackAlloc_Alloc (Some s) size) = NULL_PTR /\
  (current s <= 2 ^ 32 - 8 -> snd (StackAlloc_Alloc (Some s) size) = Some s).
Proof.
  intros Hr Hsize Hbig.
  pose proof Hr as [Hf (H1 & H2 & H3)].
  pose proof Hf as (Hbs & Hbe & Hcur & Hcap).
  cbn [StackAlloc_GetAvailable] in Hbig.
  rewrite to_uint32_small in Hbig by word_arith.
  destruct (StackAlloc_Alloc_cases s size Hcur Hsize)
    as [Heq | (Hnz & Hsum & Hend & Heq)]; rewrite Heq; cbn [fst snd];
    [now split | ].
  destruct (AlignUp_cases _ Hcur) as [H | H]; cbv zeta in H.
  - lia.
  - split; [apply H | lia].
Qed.

Lemma oversized_allocation_rejected_witness :
  Ready after_alloc_10 /\ in_uint32 1015 /\
  StackAlloc_GetAvailable (Some after_alloc_10) < 1015 /\
  StackAlloc_Alloc (Some after_alloc_10) 1015
  = (NULL_PTR, Some after_alloc_10).
Proof.
  assert (Hr : Ready after_alloc_10) by (vm_compute; intuition discriminate).
  assert (Hs : in_uint32 1015) by (vm_compute; intuition discriminate).
  assert (Hb : StackAlloc_GetAvailable (Some after_alloc_10) < 1015)
    by reflexivity.
  split; [exact Hr | split; [exact Hs | split; [exact Hb | ]]].
  destruct (oversized_allocation_rejected after_alloc_10 1015 Hr Hs Hb)
    as [Hp Hst].
  rewrite (surjective_pairing (StackAlloc_Alloc (Some after_alloc_10) 1015)).
  rewrite Hp, Hst; [reflexivity | vm_compute; discriminate].
Defined.

(** A request that fits succeeds: with a non-null buffer and a non-zero
    [size], an allocation cannot fail once [size + 7] bytes are available,
    and when the cursor is on a boundary [size] available bytes are enough
    and the block starts at the cursor. *)
Theorem fitting_allocation_succeeds (s : TStack_alloc) (size : Z) :
  Ready s -> buffer_start s <> NULL_PTR -> 0 < size ->
  (size + 7 <= StackAlloc_GetAvailable (Some s) \/
   (current s mod STACK_ALLOC_ALIGNMENT = 0 /\
    size <= StackAlloc_GetAvailable (Some s))) ->
  let p := fst (StackAlloc_Alloc (Some s) size) in
  p <> NULL_PTR /\
  current s <= p < current s + STACK_ALLOC_ALIGNMENT /\
  (current s mod STACK_ALLOC_ALIGNMENT = 0 -> p = current s) /\
  snd (StackAlloc_Alloc (Some s) size) = Some (set_current s (p + size)).
Proof.
  intros Hr Hnz Hpos Hroom. cbv zeta.
  pose proof Hr as [Hf (H1 & H2 & H3)].
  pose proof Hf as (Hbs & Hbe & Hcur & Hcap).
  cbn [StackAlloc_GetAvailable] in Hroom.
  rewrite to_uint32_small in Hroom by word_arith.
  assert (Hsize : in_uint32 size) by (unfold in_uint32 in *; lia).
  pose proof (AlignUp_aligned _ Hcur) as Hal.
  pose proof (AlignUp_cases _ Hcur) as Hc. cbv zeta in Hc.
  unfold StackAlloc_Alloc. cbv zeta.
  set (p := AlignUp (current s) STACK_ALLOC_ALIGNMENT) in *.
  assert (Hp : current s <= p /\ p + size <= buffer_end s) by word_arith.
  destruct (Z.eqb_spec size 0) as [E | _]; [lia | ].
  rewrite to_uint32_small by word_arith.
  destruct (Z.ltb_spec (p + size) p) as [E | _]; [lia | ]. cbn [orb].
  destruct (Z.gtb_spec (p + size) (buffer_end s)) as [E | _]; [lia | ].
  cbn [fst snd]. unfold NULL_PTR, STACK_ALLOC_ALIGNMENT in *.
  repeat split; try reflexivity; try word_arith.
Qed.

Lemma fitting_allocation_succeeds_witness :
  Ready after_alloc_10 /\ buffer_start after_alloc_10 <> NULL_PTR /\
  0 < 1000 /\ 1000 + 7 <= StackAlloc_GetAvailable (Some after_alloc_10) /\
  fst (StackAlloc_Alloc (Some after_alloc_10) 1000) <> NULL_PTR.
Proof.
  assert (Hr : Ready after_alloc_10) by (vm_compute; intuition discriminate).
  assert (Hn : buffer_start after_alloc_10 <> NULL_PTR)
    by (vm_compute; discriminate).
  assert (Hp : 0 < 1000) by reflexivity.
  assert (Hroom : 1000 + 7 <= StackAlloc_GetAvailable (Some after_alloc_10))
    by (vm_compute; discriminate).
  repeat (split; [assumption | ]).
  exact (proj1 (fitting_allocation_succeeds after_alloc_10 1000 Hr Hn Hp
                  (or_introl Hroom))).
Defined.

(** With the cursor in the last seven addresses of the address space the
    round-up wraps to [0]: every request of at most [buffer_end] bytes makes
    [StackAlloc_Alloc] return [NULL_PTR], as for a failure, and yet store
    [size] itself in [current]. *)
Theorem allocation_at_top_moves_cursor (s : TStack_alloc) (size : Z) :
  fields_in_range s -> 2 ^ 32 - 8 < current s ->
  0 < size <= buffer_end s ->
  StackAlloc_Alloc (Some s) size = (NULL_PTR, Some (set_current s size)).
Proof.
  intros Hf Htop Hsize.
  pose proof Hf as (Hbs & Hbe & Hcur & Hcap).
  unfold StackAlloc_Alloc. cbv zeta.
  rewrite (AlignUp_wraps_at_top _ Hcur Htop). cbn [Z.add].
  assert (Hs : in_uint32 size) by (unfold in_uint32 in *; lia).
  rewrite to_uint32_small by exact Hs.
  destruct (Z.eqb_spec size 0) as [E | _]; [lia | ].
  destruct (Z.ltb_spec size 0) as [E | _]; [lia | ]. cbn [orb].
  destruct (Z.gtb_spec size (buffer_end s)) as [E | _]; [lia | reflexivity].
Qed.

Lemma allocation_at_top_moves_cursor_witness :
  fields_in_range top_of_memory /\ 2 ^ 32 - 8 < current top_of_memory /\
  0 < 1 <= buffer_end top_of_memory /\
  StackAlloc_Alloc (Some top_of_memory) 1
  = (NULL_PTR, Some (set_current top_of_memory 1)).
Proof.
  assert (Hf : fields_in_range top_of_memory)
    by (vm_compute; intuition discriminate).
  assert (Ht : 2 ^ 32 - 8 < current top_of_memory) by reflexivity.
  assert (Hs : 0 < 1 <= buffer_end top_of_memory)
    by (vm_compute; intuition discriminate).
  split; [exact Hf | split; [exact Ht | split; [exact Hs | ]]].
  exact (allocation_at_top_moves_cursor top_of_memory 1 Hf Ht Hs).
Defined.

(** ** Rewinding *)

(** On an instance whose fields are in order, freeing back to the address
    of an allocation undoes it: the call is accepted, [current] becomes that
    address (the old cursor rounded up), the instance is the one before the
    allocation exactly when the old cursor was on a boundary, and any
    following request is answered with the same address the instance would
    have given before the allocation. *)
Theorem free_to_allocation_undoes_it (s : TStack_alloc) (size : Z) :
  Ready s -> in_uint32 size ->
  let p := fst (StackAlloc_Alloc (Some s) size) in
  let sa1 := snd (StackAlloc_Alloc (Some s) size) in
  p <> NULL_PTR ->
  StackAlloc_FreeToMarker sa1 p = (STACK_ALLOC_OK, Some (set_current s p)) /\
  (current s mod STACK_ALLOC_ALIGNMENT = 0 <-> set_current s p = s) /\
  (forall n, fst (StackAlloc_Alloc (Some (set_current s p)) n)
             = fst (StackAlloc_Alloc (Some s) n)).
Proof.
  intros Hr Hsize. cbv zeta. intros Hp.
  pose proof Hr as [Hf (H1 & H2 & H3)].
  pose proof Hf as (Hbs & Hbe & Hcur & Hcap).
  destruct (StackAlloc_Alloc_success s size Hcur Hsize Hp)
    as (Hpeq & Hal & Hge & Hpos & Hend & ->).
  set (p := fst (StackAlloc_Alloc (Some s) size)) in *. clearbody p.
  split; [ | split].
  - destruct (StackAlloc_FreeToMarker_cases (set_current s (p + size)) p)
      as [(Hm & _) | [(_ & Hbad & _) | (_ & _ & _ & Heq)]];
      cbn [set_current buffer_start current] in *.
    + contradiction.
    + exfalso. destruct Hbad as [Hbad | Hbad]; [lia | contradiction].
    + exact Heq.
  - split.
    + intros Hz. rewrite (AlignUp_fixed _ Hz) in Hpeq. rewrite Hpeq.
      now destruct s.
    + intros Hsame. assert (Hc : current (set_current s p) = current s)
        by now rewrite Hsame.
      cbn [set_current current] in Hc. now rewrite <- Hc.
  - intros n. unfold StackAlloc_Alloc. cbv zeta.
    cbn [set_current current buffer_end].
    rewrite (AlignUp_fixed p Hal), <- Hpeq.
    destruct (n =? 0); [reflexivity | ].
    now destruct ((to_uint32 (p + n) <? p) || (to_uint32 (p + n) >? buffer_end s)).
Qed.

Lemma free_to_allocation_undoes_it_witness :
  Ready after_alloc_10 /\ in_uint32 20 /\
  fst (StackAlloc_Alloc (Some after_alloc_10) 20) <> NULL_PTR /\
  StackAlloc_FreeToMarker (snd (StackAlloc_Alloc (Some after_alloc_10) 20)) 24
  = (STACK_ALLOC_OK, Some (set_current after_alloc_10 24)).
Proof.
  assert (Hr : Ready after_alloc_10) by (vm_compute; intuition discriminate).
  assert (Hs : in_uint32 20) by (vm_compute; intuition discriminate).
  assert (Hp : fst (StackAlloc_Alloc (Some after_alloc_10) 20) <> NULL_PTR)
    by (vm_compute; discriminate).
  split; [exact Hr | split; [exact Hs | split; [exact Hp | ]]].
  exact (proj1 (free_to_allocation_undoes_it after_alloc_10 20 Hr Hs Hp)).
Defined.

(** The cursor itself is not always a usable marker.  After an allocation
    whose size is not a multiple of the alignment, the value of [current]
    (what [StackAlloc_GetMarker] hands out) is rejected with
    [INVALID_MARKER] by every later [StackAlloc_FreeToMarker], whatever was
    allocated in between. *)
Theorem unaligned_cursor_is_no_marker (s later : TStack_alloc) (size : Z) :
  fields_in_range s -> in_uint32 size ->
  fst (StackAlloc_Alloc (Some s) size) <> NULL_PTR ->
  size mod STACK_ALLOC_ALIGNMENT <> 0 ->
  let marker := StackAlloc_GetMarker (snd (StackAlloc_Alloc (Some s) size)) in
  marker = fst (StackAlloc_Alloc (Some s) size) + size /\
  StackAlloc_FreeToMarker (Some later) marker
  = (STACK_ALLOC_ERROR_INVALID_MARKER, Some later).
Proof.
  intros Hf Hsize Hp Hodd. cbv zeta.
  pose proof Hf as (Hbs & Hbe & Hcur & Hcap).
  destruct (StackAlloc_Alloc_success s size Hcur Hsize Hp)
    as (Hpeq & Hal & Hge & Hpos & Hend & ->).
  set (p := fst (StackAlloc_Alloc (Some s) size)) in *. clearbody p.
  cbn [StackAlloc_GetMarker set_current current].
  split; [reflexivity | ].
  assert (Hm : (p + size) mod STACK_ALLOC_ALIGNMENT <> 0) by word_arith.
  destruct (StackAlloc_FreeToMarker_cases later (p + size))
    as [(Hz & _) | [(_ & _ & Heq) | (_ & _ & Hal' & _)]].
  - exfalso. unfold NULL_PTR, in_uint32 in *. lia.
  - exact Heq.
  - contradiction.
Qed.

Lemma unaligned_cursor_is_no_marker_witness :
  fields_in_range fresh_1024 /\ in_uint32 10 /\
  fst (StackAlloc_Alloc (Some fresh_1024) 10) <> NULL_PTR /\
  10 mod STACK_ALLOC_ALIGNMENT <> 0 /\
  StackAlloc_FreeToMarker
    (snd (StackAlloc_Alloc (Some after_alloc_10) 20)) 18
  = (STACK_ALLOC_ERROR_INVALID_MARKER,
     snd (StackAlloc_Alloc (Some after_alloc_10) 20)).
Proof.
  assert (Hf : fields_in_range fresh_1024)
    by (vm_compute; intuition discriminate).
  assert (Hs : in_uint32 10) by (vm_compute; intuition discriminate).
  assert (Hp : fst (StackAlloc_Alloc (Some fresh_1024) 10) <> NULL_PTR)
    by (vm_compute; discriminate).
  assert (Ho : 10 mod STACK_ALLOC_ALIGNMENT <> 0)
    by (vm_compute; discriminate).
  split; [exact Hf | split; [exact Hs | split; [exact Hp | split; [exact Ho | ]]]].
  exact (proj2 (unaligned_cursor_is_no_marker fresh_1024
                  (mkStack_alloc 8 1032 44 1024) 10 Hf Hs Hp Ho)).
Defined.

(** Rewinding is one-way: once [StackAlloc_FreeToMarker] has accepted a
    marker, that marker and every marker above it are rejected with
    [INVALID_MARKER], and the instance stays where the first call left
    it. *)
Theorem forward_markers_rejected (s : TStack_alloc) (marker later : Z) :
  in_uint32 marker ->
  fst (StackAlloc_FreeToMarker (Some s) marker) = STACK_ALLOC_OK ->
  marker <= later ->
  let sa1 := snd (StackAlloc_FreeToMarker (Some s) marker) in
  StackAlloc_FreeToMarker sa1 later = (STACK_ALLOC_ERROR_INVALID_MARKER, sa1).
Proof.
  intros Hrange Hok Hle. cbv zeta.
  destruct (StackAlloc_FreeToMarker_cases s marker)
    as [(_ & Heq) | [(_ & _ & Heq) | (Hm & Hin & Hal & Heq)]];
    rewrite Heq in *; cbn [fst snd] in *; try discriminate.
  unfold StackAlloc_FreeToMarker. cbn [set_current buffer_start current].
  cbv zeta. unfold NULL_PTR, in_uint32 in *.
  destruct (Z.eqb_spec later 0) as [E | _]; [lia | ].
  destruct (Z.ltb_spec later (buffer_start s)) as [E | _]; [reflexivity | ].
  cbn [orb].
  destruct (Z.geb_spec later marker) as [_ | E]; [reflexivity | lia].
Qed.

Lemma forward_markers_rejected_witness :
  in_uint32 16 /\
  fst (StackAlloc_FreeToMarker (Some after_alloc_10) 16) = STACK_ALLOC_OK /\
  16 <= 16 /\
  StackAlloc_FreeToMarker
    (snd (StackAlloc_FreeToMarker (Some after_alloc_10) 16)) 16
  = (STACK_ALLOC_ERROR_INVALID_MARKER,
     snd (StackAlloc_FreeToMarker (Some after_alloc_10) 16)).
Proof.
  assert (Hok : fst (StackAlloc_FreeToMarker (Some after_alloc_10) 16)
                = STACK_ALLOC_OK) by reflexivity.
  assert (Hle : 16 <= 16) by lia.
  assert (Hm : in_uint32 16) by (vm_compute; intuition discriminate).
  split; [exact Hm | split; [exact Hok | split; [exact Hle | ]]].
  exact (forward_markers_rejected after_alloc_10 16 16 Hm Hok Hle).
Defined.

(** ** [StackAlloc_Reset] *)

(** [StackAlloc_Reset] puts the cursor on the aligned start and touches
    nothing else: used becomes [0], a second reset changes nothing, and
    whenever [StackAlloc_FreeToMarker] accepts the aligned start as a marker
    it leaves the same instance.  On an initialized instance with a non-null
    buffer that call is accepted exactly when something is allocated; reset
    also works on an empty stack. *)
Theorem StackAlloc_Reset_spec (s : TStack_alloc) :
  Ready s -> buffer_start s <> NULL_PTR ->
  StackAlloc_Reset (Some s) = Some (set_current s (GetAlignedStart s)) /\
  StackAlloc_Reset (StackAlloc_Reset (Some s)) = StackAlloc_Reset (Some s) /\
  StackAlloc_GetUsed (StackAlloc_Reset (Some s)) = 0 /\
  StackAlloc_GetAvailable (StackAlloc_Reset (Some s))
  = buffer_end s - GetAlignedStart s /\
  (fst (StackAlloc_FreeToMarker (Some s) (GetAlignedStart s)) = STACK_ALLOC_OK
   <-> GetAlignedStart s < current s) /\
  (fst (StackAlloc_FreeToMarker (Some s) (GetAlignedStart s)) = STACK_ALLOC_OK
   -> snd (StackAlloc_FreeToMarker (Some s) (GetAlignedStart s))
      = StackAlloc_Reset (Some s)).
Proof.
  intros Hr Hnz.
  pose proof Hr as [Hf (H1 & H2 & H3)].
  pose proof Hf as (Hbs & Hbe & Hcur & Hcap).
  pose proof (Ready_aligned_start s Hr) as Hal.
  cbn [StackAlloc_Reset StackAlloc_GetUsed StackAlloc_GetAvailable
       set_current current buffer_end]. cbv zeta.
  change (GetAlignedStart (set_current s (GetAlignedStart s)))
    with (GetAlignedStart s).
  cbn [set_current current].
  split; [reflexivity | ]. split; [reflexivity | ].
  split; [now rewrite Z.sub_diag | ].
  split; [apply to_uint32_small; word_arith | ].
  destruct (StackAlloc_FreeToMarker_cases s (GetAlignedStart s))
    as [(Hm & Heq) | [(_ & Hbad & Heq) | (_ & Hin & _ & Heq)]];
    rewrite Heq; cbn [fst snd].
  - exfalso. unfold NULL_PTR, in_uint32 in *. lia.
  - split; [ | discriminate]. split; [discriminate | ].
    intros Hlt. exfalso. destruct Hbad as [Hbad | Hbad]; [lia | contradiction].
  - split; [ | reflexivity]. split; [intros _; lia | reflexivity].
Qed.

Lemma StackAlloc_Reset_spec_witness :
  Ready after_alloc_10 /\ buffer_start after_alloc_10 <> NULL_PTR /\
  StackAlloc_Reset (Some after_alloc_10) = Some fresh_1024 /\
  StackAlloc_GetUsed (StackAlloc_Reset (Some after_alloc_10)) = 0.
Proof.
  assert (Hr : Ready after_alloc_10) by (vm_compute; intuition discriminate).
  assert (Hn : buffer_start after_alloc_10 <> NULL_PTR)
    by (vm_compute; discriminate).
  split; [exact Hr | split; [exact Hn | ]].
  destruct (StackAlloc_Reset_spec after_alloc_10 Hr Hn) as (H1 & _ & H2 & _).
  split; [exact H1 | exact H2].
Defined.

(** ** The overflow guard of [StackAlloc_Calloc] *)

(** The division test is exact: [StackAlloc_Calloc] gives up on the size
    alone precisely when [num * size] does not fit in a [uint32] (or is
    [0]); a product that fits is always passed on, unchanged, to
    [StackAlloc_Alloc]. *)
Theorem StackAlloc_Calloc_guard_exact (sa : option TStack_alloc) (m : memory)
  (num size : Z) :
  in_uint32 num -> in_uint32 size ->
  (SIZE_MAX < num * size ->
   StackAlloc_Calloc sa m num size = (NULL_PTR, sa, m)) /\
  (0 < num * size <= SIZE_MAX ->
   fst (StackAlloc_Calloc sa m num size) = StackAlloc_Alloc sa (num * size)) /\
  (num * size = 0 -> StackAlloc_Calloc sa m num size = (NULL_PTR, sa, m)).
Proof.
  intros Hnum Hsize.
  assert (Hdiv : 0 < size -> (num <= SIZE_MAX / size <-> num * size <= SIZE_MAX)).
  { intros Hpos. change SIZE_MAX with 4294967295.
    split; intros H.
    - pose proof (Z.mul_div_le 4294967295 size Hpos).
      set (q := 4294967295 / size) in *. nia.
    - apply Z.div_le_lower_bound; lia. }
  split; [ | split].
  - intros Hbig.
    change SIZE_MAX with 4294967295 in Hbig.
    assert (Hs : 0 < size).
    { destruct (Z.eq_dec size 0) as [-> | ];
        [rewrite Z.mul_0_r in Hbig | unfold in_uint32 in *]; lia. }
    unfold StackAlloc_Calloc.
    destruct ((num =? 0) || (size =? 0)); [reflexivity | ].
    destruct (Z.gtb_spec num (SIZE_MAX / size)) as [_ | E]; [reflexivity | ].
    apply Hdiv in E; [ | exact Hs].
    change SIZE_MAX with 4294967295 in E. lia.
  - intros [Hpos Hfit].
    assert (Hn : num <> 0) by (intros ->; lia).
    assert (Hs : size <> 0) by (intros ->; lia).
    assert (Hle : num <= SIZE_MAX / size)
      by (apply Hdiv; [unfold in_uint32 in *; lia | exact Hfit]).
    rewrite (StackAlloc_Calloc_delegates sa m num size Hn Hs Hle).
    rewrite (guarded_product_exact num size Hnum Hsize Hs Hle). cbn [fst].
    now destruct (StackAlloc_Alloc sa (num * size)).
  - intros Hz. unfold StackAlloc_Calloc.
    destruct (Z.eqb_spec num 0) as [_ | Hn]; [reflexivity | ].
    destruct (Z.eqb_spec size 0) as [_ | Hs]; [reflexivity | ].
    apply Z.mul_eq_0 in Hz. tauto.
Qed.

Lemma StackAlloc_Calloc_guard_exact_witness :
  in_uint32 65536 /\ in_uint32 65536 /\ SIZE_MAX < 65536 * 65536 /\
  StackAlloc_Calloc (Some fresh_1024) dirty_memory 65536 65536
  = (NULL_PTR, Some fresh_1024, dirty_memory).
Proof.
  assert (Hn : in_uint32 65536) by (vm_compute; intuition discriminate).
  assert (Hb : SIZE_MAX < 65536 * 65536) by reflexivity.
  split; [exact Hn | split; [exact Hn | split; [exact Hb | ]]].
  exact (proj1 (StackAlloc_Calloc_guard_exact (Some fresh_1024) dirty_memory
                  65536 65536 Hn Hn) Hb).
Defined.

(** ** The test cases *)

Lemma AlignUp_offset (a k : Z) :
  a mod STACK_ALLOC_ALIGNMENT = 0 -> 0 <= a -> 0 <= k ->
  k + 8 <= 2 ^ 32 -> a + AlignUp k STACK_ALLOC_ALIGNMENT < 2 ^ 32 ->
  AlignUp (a + k) STACK_ALLOC_ALIGNMENT
  = a + AlignUp k STACK_ALLOC_ALIGNMENT.
Proof.
  intros Hal Ha Hk Hsmall. unfold AlignUp. cbv zeta.
  assert (Hrem : (a + k) mod STACK_ALLOC_ALIGNMENT
                 = k mod STACK_ALLOC_ALIGNMENT) by word_arith.
  rewrite Hrem.
  destruct (Z.eqb_spec (k mod STACK_ALLOC_ALIGNMENT) 0) as [E | E];
    [reflexivity | ].
  rewrite (to_uint32_small (k + _)) by word_arith. intros Hfit.
  rewrite to_uint32_small by word_arith. lia.
Qed.

Section TestCases.

(** Where the static array lies, and what the local [sa] holds. *)
Variable g_test_buffer : Z.
Variable sa : TStack_alloc.

(** The array is an object of [TEST_BUFFER_SIZE] bytes in the address
    space: its address is not null and its end address exists. *)
Hypothesis buffer_not_null : 0 < g_test_buffer.
Hypothesis buffer_in_memory : g_test_buffer + TEST_BUFFER_SIZE < 2 ^ 32.

Let a0 : Z := AlignUp g_test_buffer STACK_ALLOC_ALIGNMENT.

Let at_offset (k : Z) : TStack_alloc :=
  mkStack_alloc g_test_buffer (g_test_buffer + 1024) (a0 + k) 1024.

Local Lemma a0_facts :
  g_test_buffer <= a0 < g_test_buffer + 8 /\
  a0 mod STACK_ALLOC_ALIGNMENT = 0.
Proof.
  assert (Hg : in_uint32 g_test_buffer)
    by (unfold in_uint32, TEST_BUFFER_SIZE in *; lia).
  split; [ | now apply AlignUp_aligned].
  destruct (AlignUp_cases _ Hg) as [H | H]; cbv zeta in H; fold a0 in H;
    unfold TEST_BUFFER_SIZE in *; lia.
Qed.

Local Lemma init_result :
  StackAlloc_Init (Some sa) g_test_buffer TEST_BUFFER_SIZE
  = (STACK_ALLOC_OK, Some (at_offset 0)).
Proof.
  pose proof a0_facts as [Hr _].
  destruct (StackAlloc_Init_cases sa g_test_buffer TEST_BUFFER_SIZE)
    as [(Hrej & _) | [(_ & _ & Hcmp & _) | (_ & _ & _ & Heq)]];
    unfold TEST_BUFFER_SIZE, NULL_PTR in *.
  - unfold STACK_ALLOC_ALIGNMENT in Hrej. lia.
  - cbn [current buffer_end] in Hcmp.
    change (AlignUp g_test_buffer STACK_ALLOC_ALIGNMENT) with a0 in Hcmp.
    rewrite to_uint32_small in Hcmp by (unfold in_uint32; lia). lia.
  - rewrite Heq. unfold at_offset.
    change (AlignUp g_test_buffer STACK_ALLOC_ALIGNMENT) with a0.
    rewrite to_uint32_small by (unfold in_uint32; lia).
    now rewrite Z.add_0_r.
Qed.

(** An allocation from the cursor [a0 + k]: the block starts at
    [a0 + AlignUp k] and the cursor moves to its end. *)
Local Lemma alloc_result (k k' size c : Z) :
  0 <= k -> k' = AlignUp k STACK_ALLOC_ALIGNMENT -> c = k' + size ->
  0 < size -> k' + size <= 1016 -> k <= 1016 ->
  StackAlloc_Alloc (Some (at_offset k)) size
  = (a0 + k', Some (at_offset c)).
Proof.
  intros Hk Hk' -> Hsize Hfit Hk2.
  pose proof a0_facts as [Hr Hal].
  unfold TEST_BUFFER_SIZE in *.
  assert (Hkr : k <= k' < k + 8).
  { assert (Hin : in_uint32 k) by (unfold in_uint32; lia).
    destruct (AlignUp_cases k Hin) as [H | H]; cbv zeta in H;
      rewrite <- Hk' in H; lia. }
  unfold StackAlloc_Alloc, at_offset. cbn [current buffer_end]. cbv zeta.
  rewrite AlignUp_offset by (trivial; rewrite <- ?Hk'; lia). rewrite <- Hk'.
  rewrite to_uint32_small by word_arith.
  destruct (Z.eqb_spec size 0) as [E | _]; [lia | ].
  destruct (Z.ltb_spec (a0 + k' + size) (a0 + k')) as [E | _]; [lia | ].
  destruct (Z.gtb_spec (a0 + k' + size) (g_test_buffer + 1024))
    as [E | _]; [lia | ].
  cbn [orb set_current buffer_start buffer_end current capacity].
  now rewrite Z.add_assoc.
Qed.

Local Lemma used_at_offset (k : Z) :
  0 <= k <= 1024 -> StackAlloc_GetUsed (Some (at_offset k)) = k.
Proof.
  intros Hk. cbn [StackAlloc_GetUsed]. cbv zeta.
  unfold GetAlignedStart, at_offset. cbn [buffer_start current].
  fold a0. replace (a0 + k - a0) with k by lia.
  apply to_uint32_small. unfold in_uint32. lia.
Qed.

Local Lemma available_at_offset (k : Z) :
  0 <= k <= 1016 ->
  StackAlloc_GetAvailable (Some (at_offset k))
  = g_test_buffer + 1024 - (a0 + k).
Proof.
  intros Hk. pose proof a0_facts as [Hr _].
  cbn [StackAlloc_GetAvailable at_offset buffer_end current].
  unfold at_offset. cbn [buffer_end current].
  apply to_uint32_small. unfold in_uint32. lia.
Qed.


(** Rewrites with the results of the calls, then settles the assertions. *)
Local Ltac run_test :=
  rewrite ?init_result; cbv beta iota zeta;
  repeat (first
    [ rewrite (alloc_result 0 0 1 1) by (reflexivity || lia)
    | rewrite (alloc_result 0 0 10 10) by (reflexivity || lia)
    | rewrite (alloc_result 0 0 100 100) by (reflexivity || lia)
    | rewrite (alloc_result 10 16 20 36) by (reflexivity || lia)
    | rewrite (alloc_result 36 40 30 70) by (reflexivity || lia) ];
    cbv beta iota zeta);
  rewrite ?used_at_offset by lia;
  unfold TEST_ASSERT, error_eqb, field, at_offset, NULL_PTR,
    TEST_BUFFER_SIZE in *;
  cbn [buffer_start buffer_end current capacity error_code negb andb];
  pose proof a0_facts as [? ?];
  repeat match goal with
         | |- context [?x =? ?y] => destruct (Z.eqb_spec x y)
         | |- context [?x >? ?y] => destruct (Z.gtb_spec x y)
         | |- context [?x >=? ?y] => destruct (Z.geb_spec x y)
         | |- context [?x <=? ?y] => destruct (Z.leb_spec x y)
         end;
  cbn [negb andb]; try reflexivity; exfalso; lia.

Local Lemma test_init_basic_passes :
  test_init_basic g_test_buffer sa = true.
Proof.
  unfold test_init_basic. rewrite init_result. cbv beta iota zeta.
  rewrite (to_uint32_small (g_test_buffer + TEST_BUFFER_SIZE))
    by (unfold in_uint32, TEST_BUFFER_SIZE in *; lia).
  run_test.
Qed.

Local Lemma test_init_invalid_params_passes :
  test_init_invalid_params g_test_buffer sa = true.
Proof.
  unfold test_init_invalid_params.
  cbn [StackAlloc_Init]. cbv beta iota zeta.
  unfold StackAlloc_Init.
  change (NULL_PTR =? NULL_PTR) with true. cbn [orb]. cbv beta iota zeta.
  change (0 <? STACK_ALLOC_ALIGNMENT) with true. rewrite orb_true_r.
  reflexivity.
Qed.

Local Lemma test_alloc_basic_passes :
  test_alloc_basic g_test_buffer sa = true.
Proof. unfold test_alloc_basic. run_test. Qed.

Local Lemma test_alloc_zero_size_passes :
  test_alloc_zero_size g_test_buffer sa = true.
Proof.
  unfold test_alloc_zero_size. rewrite init_result. reflexivity.
Qed.

Local Lemma test_alloc_overflow_passes :
  test_alloc_overflow g_test_buffer sa = true.
Proof.
  unfold test_alloc_overflow. rewrite init_result. cbv beta iota zeta.
  rewrite available_at_offset by lia.
  pose proof a0_facts as [Hr Hal].
  assert (Hcur : in_uint32 (current (at_offset 0)))
    by (unfold at_offset, in_uint32, TEST_BUFFER_SIZE in *; cbn; lia).
  set (size := to_uint32 (g_test_buffer + 1024 - (a0 + 0) + 1)).
  assert (Hsize : size = g_test_buffer + 1024 - (a0 + 0) + 1)
    by (apply to_uint32_small; unfold in_uint32; lia).
  assert (Hin : in_uint32 size) by apply to_uint32_range.
  destruct (StackAlloc_Alloc_cases (at_offset 0) size Hcur Hin)
    as [Heq | (_ & _ & Hend & _)].
  - rewrite Heq. reflexivity.
  - exfalso. unfold at_offset in Hend. cbn [current buffer_end] in Hend.
    rewrite (AlignUp_fixed (a0 + 0)) in Hend
      by (rewrite Z.add_0_r; exact Hal).
    lia.
Qed.

Local Lemma test_reset_passes :
  test_reset g_test_buffer sa = true.
Proof.
  unfold test_reset. rewrite init_result. cbv beta iota zeta.
  rewrite (alloc_result 0 0 100 100) by (reflexivity || lia).
  cbv beta iota zeta. rewrite used_at_offset by lia.
  cbn [StackAlloc_Reset StackAlloc_GetUsed]. cbv zeta.
  unfold GetAlignedStart, set_current, at_offset.
  cbn [buffer_start buffer_end current capacity].
  rewrite Z.sub_diag. change (to_uint32 0) with 0.
  run_test.
Qed.

Local Lemma test_capacity_used_available_passes :
  test_capacity_used_available g_test_buffer sa = true.
Proof.
  unfold test_capacity_used_available. rewrite init_result.
  cbv beta iota zeta.
  rewrite used_at_offset, available_at_offset by lia.
  cbn [StackAlloc_GetCapacity StackAlloc_GetUsed StackAlloc_GetAvailable].
  run_test.
Qed.

Local Lemma test_validate_passes :
  test_validate g_test_buffer sa = true.
Proof.
  unfold test_validate. rewrite init_result. cbv beta iota zeta.
  pose proof a0_facts as [Hr Hal].
  rewrite (Ready_validates (at_offset 0)); [reflexivity | | ].
  - unfold Ready, fields_in_range, ordered, GetAlignedStart, at_offset,
      in_uint32, TEST_BUFFER_SIZE in *.
    cbn [buffer_start buffer_end current capacity]. fold a0.
    repeat split; lia.
  - unfold at_offset, NULL_PTR. cbn [buffer_start]. lia.
Qed.

Local Lemma test_free_to_marker_behavior_passes :
  test_free_to_marker_behavior g_test_buffer sa = true.
Proof.
  unfold test_free_to_marker_behavior. rewrite init_result.
  cbv beta iota zeta.
  rewrite (alloc_result 0 0 10 10) by (reflexivity || lia).
  cbv beta iota zeta.
  rewrite (alloc_result 10 16 20 36) by (reflexivity || lia).
  cbv beta iota zeta.
  rewrite (alloc_result 36 40 30 70) by (reflexivity || lia).
  cbv beta iota zeta.
  pose proof a0_facts as [Hr Hal]. unfold TEST_BUFFER_SIZE in *.
  destruct (StackAlloc_FreeToMarker_cases (at_offset 70) (a0 + 16))
    as [(Hm & _) | [(_ & Hbad & _) | (_ & _ & _ & Heq)]].
  { unfold NULL_PTR in Hm. lia. }
  { exfalso. unfold at_offset in Hbad. cbn [buffer_start current] in Hbad.
    destruct Hbad as [Hbad | Hbad]; [lia | word_arith]. }
  rewrite Heq.
  destruct (StackAlloc_FreeToMarker_cases
              (set_current (at_offset 70) (a0 + 16)) (a0 + 40))
    as [(Hm & _) | [(_ & _ & Heq') | (_ & Hin & _ & _)]].
  { unfold NULL_PTR in Hm. lia. }
  2:{ exfalso. cbn [set_current current] in Hin. lia. }
  rewrite Heq'.
  unfold TEST_ASSERT, error_eqb, NULL_PTR. cbn [error_code].
  change (0 =? 0) with true. change (4 =? 0) with false. cbn [negb].
  destruct (Z.eqb_spec (a0 + 0) 0); [lia | ].
  destruct (Z.eqb_spec (a0 + 16) 0); [lia | ].
  destruct (Z.eqb_spec (a0 + 40) 0); [lia | ].
  reflexivity.
Qed.

(** Wherever the linker puts [g_test_buffer] and whatever the local [sa]
    holds before [StackAlloc_Init], these ten test cases of the suite
    return [TRUE]: every one of their assertions holds. *)
Theorem test_cases_pass :
  test_init_basic g_test_buffer sa = true /\
  test_init_invalid_params g_test_buffer sa = true /\
  test_alloc_basic g_test_buffer sa = true /\
  test_alloc_zero_size g_test_buffer sa = true /\
  test_alloc_null_sa = true /\
  test_alloc_overflow g_test_buffer sa = true /\
  test_reset g_test_buffer sa = true /\
  test_capacity_used_available g_test_buffer sa = true /\
  test_validate g_test_buffer sa = true /\
  test_free_to_marker_behavior g_test_buffer sa = true.
Proof.
  repeat split.
  - apply test_init_basic_passes.
  - apply test_init_invalid_params_passes.
  - apply test_alloc_basic_passes.
  - apply test_alloc_zero_size_passes.
  - apply test_alloc_overflow_passes.
  - apply test_reset_passes.
  - apply test_capacity_used_available_passes.
  - apply test_validate_passes.
  - apply test_free_to_marker_behavior_passes.
Qed.

End TestCases.

Lemma test_cases_pass_witness :
  0 < 536870913 /\ 536870913 + TEST_BUFFER_SIZE < 2 ^ 32 /\
  test_alloc_basic 536870913 scratch = true /\
  test_free_to_marker_behavior 536870913 scratch = true.
Proof.
  assert (H1 : 0 < 536870913) by reflexivity.
  assert (H2 : 536870913 + TEST_BUFFER_SIZE < 2 ^ 32) by reflexivity.
  split; [exact H1 | split; [exact H2 | ]].
  destruct (test_cases_pass 536870913 scratch H1 H2)
    as (_ & _ & Hb & _ & _ & _ & _ & _ & _ & Hf).
  split; [exact Hb | exact Hf].
Defined.

